(** * ESPTools: debounced GPIO interrupts

    A shallow embedding of the interrupt module of ESPTools
    (gpio_state.h, interrupt.h, interrupt.cpp, core.h, core.cpp) and of
    the event handler of wifi.cpp: the three-valued [GpioState], the
    per-object debounce state machine of [Interrupt], the process-wide
    registry of interrupt ids and the hand-off between the interrupt
    handler and the daemon task.

    Integers of the program are [Z] with their width written out; the
    two [std::unordered_map]s are [gmap]s; [std::bitset<32>] is the
    32-bit word of its bits. *)

From Stdlib Require Import ZArith Lia List Bool.
From stdpp Require Import base option list gmap fin_maps.

Local Open Scope Z_scope.

(** ** gpio_state.h *)

Module GpioState.


(** [enum Value : int8_t { Undefined = -1, Low = 0, High = 1 }] *)
Inductive Value : Set := Undefined | Low | High.

Definition Value_to_Z (v : Value) : Z :=
  match v with Undefined => -1 | Low => 0 | High => 1 end.

(** [static_cast<bool>(state)] on an arithmetic or enumeration value:
    zero is false, anything else is true. *)
Definition to_bool (state : Z) : bool := negb (state =? 0).

(** [static_cast<Value>(b)] on a bool: false is 0, true is 1. *)
Definition Value_of_bool (b : bool) : Value := if b then High else Low.

(** The struct has the single data member [value_]; a [GpioState] is
    identified with it. *)
Definition t : Set := Value.

(** [constexpr GpioState() : value_(Value::Undefined)] *)
Definition default : t := Undefined.

(** [template <typename T> constexpr GpioState(const T state,
    const bool inverse_logic = false)], at an integral or enumeration
    [T] whose value is [state]. *)
Definition ctor (state : Z) (inverse_logic : bool) : t :=
  if inverse_logic
  then Value_of_bool (negb (to_bool state))
  else Value_of_bool (to_bool state).

(** [constexpr GpioState operator!() const].  Every [return Value::X;]
    converts the enumerator to the [GpioState] return type, and the only
    converting constructor from a [Value] is the template above at
    [T = Value] with [inverse_logic = false]. *)
Definition operator_not (g : t) : t :=
  match g with
  | Low => ctor (Value_to_Z High) false
  | High => ctor (Value_to_Z Low) false
  | Undefined => ctor (Value_to_Z Undefined) false
  end.

(** Comparison goes through [operator Value()] on both sides. *)
Definition eqb (a b : t) : bool := Value_to_Z a =? Value_to_Z b.

#[export] Instance Value_eq_dec : EqDecision Value.
Proof. solve_decision. Defined.

(** A level: what a pin can read, [Low] or [High]. *)
Definition is_level (g : t) : Prop := g = Low \/ g = High.

End GpioState.

Import GpioState (Undefined, Low, High).
Abbreviation GpioState := GpioState.t.

(** ** The FreeRTOS objects the module uses

    Counting semaphores, software timers and the task notification word,
    as the calls of interrupt.cpp read and change them.  [UBaseType_t],
    [TickType_t] and the notification value are 32-bit unsigned on the
    ESP32 ports. *)

Module FreeRTOS.

Definition UINT32_MAX : Z := 2 ^ 32 - 1.

(** core.cpp: [std::numeric_limits<UBaseType_t>::max()] *)
Definition UBASETYPE_MAX : Z := UINT32_MAX.

Definition portMAX_DELAY : Z := UINT32_MAX.

(** sdkconfig default of [configTIMER_QUEUE_LENGTH] *)
Definition configTIMER_QUEUE_LENGTH : Z := 10.

Record Semaphore : Set := mkSemaphore {
  uxCount : Z;
  uxMaxCount : Z }.

Definition xSemaphoreCreateCounting (uxMaxCount uxInitialCount : Z) : Semaphore :=
  mkSemaphore uxInitialCount uxMaxCount.

Definition uxSemaphoreGetCount (q : Semaphore) : Z := uxCount q.

(** Giving a semaphore that is at its maximum count fails and leaves it
    as it is. *)
Definition xSemaphoreGive (q : Semaphore) : bool * Semaphore :=
  if uxCount q <? uxMaxCount q
  then (true, mkSemaphore (uxCount q + 1) (uxMaxCount q))
  else (false, q).

(** Taking, seen when the call returns: one unit if there is one, a
    time-out otherwise. *)
Definition xSemaphoreTake (q : Semaphore) : bool * Semaphore :=
  if 0 <? uxCount q
  then (true, mkSemaphore (uxCount q - 1) (uxMaxCount q))
  else (false, q).

(** A one-shot software timer ([uxAutoReload = pdFALSE]). *)
Record Timer : Set := mkTimer {
  active : bool;
  period : Z }.

Definition xTimerCreate (xTimerPeriod : Z) : Timer := mkTimer false xTimerPeriod.

(** Changing the period of a timer also starts it, or restarts it when
    it is running. *)
Definition xTimerChangePeriod (t : Timer) (xNewPeriod : Z) : Timer :=
  mkTimer true xNewPeriod.

Definition xTimerStop (t : Timer) : Timer := mkTimer false (period t).

(** The timer and semaphore calls a method makes, in order. *)
Inductive call : Set :=
| SemaphoreGive
| TimerChangePeriod (xNewPeriod : Z)
| TimerStop.

#[export] Instance call_eq_dec : EqDecision call.
Proof. solve_decision. Defined.

End FreeRTOS.

Import FreeRTOS.

(** ** interrupt.h, interrupt.cpp: one [Interrupt] object *)

Module Interrupt.

(** The data members of [class Interrupt].  [pGPIOConfig_] is constant
    pin configuration handed to the GPIO driver and is left out. *)
Record t : Set := mk {
  gpio_num_ : Z;
  inverse_logic_ : bool;
  interrupt_counting_semaphore_ : Semaphore;
  low_to_high_time_ticks_ : Z;
  high_to_low_time_ticks_ : Z;
  change_state_timer_ : Timer;
  raw_state_ : GpioState;
  fsm_state_ : GpioState;
  protect_timer_semaphore_ : Semaphore }.

Definition set_fsm_state_ (v : GpioState) (s : t) : t :=
  mk (gpio_num_ s) (inverse_logic_ s) (interrupt_counting_semaphore_ s)
     (low_to_high_time_ticks_ s) (high_to_low_time_ticks_ s)
     (change_state_timer_ s) (raw_state_ s) v (protect_timer_semaphore_ s).

Definition set_low_to_high_time_ticks_ (v : Z) (s : t) : t :=
  mk (gpio_num_ s) (inverse_logic_ s) (interrupt_counting_semaphore_ s)
     v (high_to_low_time_ticks_ s)
     (change_state_timer_ s) (raw_state_ s) (fsm_state_ s)
     (protect_timer_semaphore_ s).

Definition set_high_to_low_time_ticks_ (v : Z) (s : t) : t :=
  mk (gpio_num_ s) (inverse_logic_ s) (interrupt_counting_semaphore_ s)
     (low_to_high_time_ticks_ s) v
     (change_state_timer_ s) (raw_state_ s) (fsm_state_ s)
     (protect_timer_semaphore_ s).

Definition set_change_state_timer_ (v : Timer) (s : t) : t :=
  mk (gpio_num_ s) (inverse_logic_ s) (interrupt_counting_semaphore_ s)
     (low_to_high_time_ticks_ s) (high_to_low_time_ticks_ s)
     v (raw_state_ s) (fsm_state_ s) (protect_timer_semaphore_ s).

Definition set_interrupt_counting_semaphore_ (v : Semaphore) (s : t) : t :=
  mk (gpio_num_ s) (inverse_logic_ s) v
     (low_to_high_time_ticks_ s) (high_to_low_time_ticks_ s)
     (change_state_timer_ s) (raw_state_ s) (fsm_state_ s)
     (protect_timer_semaphore_ s).

(** Getters of the class.  interrupt.h declares [RawState()] and
    [LastState()] as [const] members that return a [GpioState] by
    value: a copy of [raw_state_] and of [fsm_state_]. *)
Definition GpioNum (s : t) : Z := gpio_num_ s.
Definition RawState (s : t) : GpioState := raw_state_ s.
Definition LastState (s : t) : GpioState := fsm_state_ s.

(** Modelled from the spec: the accessor [FsmState()], which
    interrupt.cpp uses and interrupt.h does not declare.  It stands for
    the spec's [fsm_state], the member [fsm_state_]. *)
Definition FsmState (s : t) : GpioState := fsm_state_ s.

Definition InverseLogic (s : t) : bool := inverse_logic_ s.

(** [TickType_t &GoHighTime()] and [TickType_t &GoLowTime()], listed
    under the setters of the class: public references to the two
    delays.  Read ... *)
Definition GoHighTime (s : t) : Z := low_to_high_time_ticks_ s.
Definition GoLowTime (s : t) : Z := high_to_low_time_ticks_ s.

(** ... and assigned through: [GoHighTime() = ticks],
    [GoLowTime() = ticks]. *)
Definition assign_GoHighTime (ticks : Z) (s : t) : t :=
  set_low_to_high_time_ticks_ ticks s.

Definition assign_GoLowTime (ticks : Z) (s : t) : t :=
  set_high_to_low_time_ticks_ ticks s.

Definition PendingInterrupts (s : t) : Z :=
  uxSemaphoreGetCount (interrupt_counting_semaphore_ s).

(** [pending_interrupts - (pending_interrupts % 2)] on [UBaseType_t] *)
Definition RedundantInterrupts (s : t) : Z :=
  let pending_interrupts := PendingInterrupts s in
  (pending_interrupts - pending_interrupts mod 2) mod 2 ^ 32.

(** The members as the constructor initialises them, before the object
    is entered in the registry.  [GpioState raw_state_;] is
    default-constructed.  [GpioState fsm_state_{GpioState::Undefined};]
    initialises from an enumerator, and the one constructor of
    [GpioState] that takes it is the converting template, at
    [T = Value]. *)
Definition init (gpio_num low_to_high_time_ticks high_to_low_time_ticks : Z)
    (inverse_logic : bool) : t :=
  mk gpio_num inverse_logic
     (xSemaphoreCreateCounting UBASETYPE_MAX 0)
     low_to_high_time_ticks high_to_low_time_ticks
     (xTimerCreate portMAX_DELAY)
     GpioState.default
     (GpioState.ctor (GpioState.Value_to_Z GpioState.Undefined) false)
     (xSemaphoreCreateCounting configTIMER_QUEUE_LENGTH 0).

(** [interrupt_obj.RawState() = GpioState(raw_gpio_level,
    interrupt_obj.InverseLogic())] in [InterruptHandler].  [RawState()]
    returns a copy of [raw_state_]; the assignment stores into that
    temporary and the member is not written.  The result is the
    temporary after the assignment, and the object. *)
Definition assign_RawState (raw_gpio_level : Z) (s : t) : GpioState * t :=
  let temporary := RawState s in
  let temporary := GpioState.ctor raw_gpio_level (InverseLogic s) in
  (temporary, s).

(** [xSemaphoreGive(interrupt_counting_semaphore_)], result ignored *)
Definition give_interrupt_counting_semaphore (s : t) : t :=
  set_interrupt_counting_semaphore_
    (snd (xSemaphoreGive (interrupt_counting_semaphore_ s))) s.

Definition StateChanger (s : t) : t * list call :=
  let s := set_fsm_state_ (GpioState.operator_not (FsmState s)) s in
  (give_interrupt_counting_semaphore s, [SemaphoreGive]).

Definition FsmTransition (new_state : GpioState) (s : t) : t * list call :=
  let wait_time :=
    if GpioState.eqb new_state High then GoHighTime s else GoLowTime s in
  if negb (wait_time =? 0)
  then (set_change_state_timer_
          (xTimerChangePeriod (change_state_timer_ s) wait_time) s,
        [TimerChangePeriod wait_time])
  else StateChanger s.

Definition FsmReset (new_state : GpioState) (s : t) : t * list call :=
  (set_change_state_timer_ (xTimerStop (change_state_timer_ s)) s, [TimerStop]).

Definition ProcessInterrupt (new_state : GpioState) (s : t) : t * list call :=
  if GpioState.eqb (FsmState s) Undefined
  then
    let s := set_fsm_state_ (GpioState.operator_not new_state) s in
    (give_interrupt_counting_semaphore s, [SemaphoreGive])
  else if negb (GpioState.eqb (FsmState s) new_state)
  then FsmTransition new_state s
  else FsmReset new_state s.

(** [TimerCallback]: the timer service runs it when the armed timer
    expires; a one-shot timer is dormant from then on. *)
Definition TimerCallback (s : t) : t * list call :=
  StateChanger (set_change_state_timer_
                  (mkTimer false (period (change_state_timer_ s))) s).

(** Modelled from the spec: the body of [WaitForSingleInterrupt], which
    interrupt.h declares and no source file defines.  The spec's
    [wait_one]: on success [pending_count] goes down by one, a time-out
    returns false and changes nothing. *)
Definition WaitForSingleInterrupt (s : t) : bool * t :=
  let r := xSemaphoreTake (interrupt_counting_semaphore_ s) in
  (fst r, set_interrupt_counting_semaphore_ (snd r) s).

End Interrupt.

Abbreviation Interrupt := Interrupt.t.

(** ** One object over time

    What can happen to one [Interrupt] object: the daemon task hands it a
    raw state ([ProcessInterrupt]), its armed timer expires
    ([TimerCallback]), a consumer takes one pending interrupt, the
    interrupt handler runs for its line and assigns to [RawState()], or
    the owner assigns a delay through [GoHighTime()] or [GoLowTime()]. *)

Module Life.

Inductive event : Set :=
| Process (new_state : GpioState)
| TimerExpiry
| Consume
| Capture (raw_gpio_level : Z)
| SetGoHighTime (ticks : Z)
| SetGoLowTime (ticks : Z).

(** What one event did: the object afterwards, the FreeRTOS calls made,
    and whether a consumer took a unit of the counting semaphore. *)
Record obs : Set := mkObs {
  after : Interrupt;
  calls : list call;
  took : bool }.

Definition step (e : event) (s : Interrupt) : obs :=
  match e with
  | Process new_state =>
      let r := Interrupt.ProcessInterrupt new_state s in mkObs (fst r) (snd r) false
  | TimerExpiry =>
      if active (Interrupt.change_state_timer_ s)
      then let r := Interrupt.TimerCallback s in mkObs (fst r) (snd r) false
      else mkObs s [] false
  | Consume =>
      let r := Interrupt.WaitForSingleInterrupt s in mkObs (snd r) [] (fst r)
  | Capture raw_gpio_level =>
      mkObs (snd (Interrupt.assign_RawState raw_gpio_level s)) [] false
  | SetGoHighTime ticks => mkObs (Interrupt.assign_GoHighTime ticks s) [] false
  | SetGoLowTime ticks => mkObs (Interrupt.assign_GoLowTime ticks s) [] false
  end.

Fixpoint run (evs : list event) (s : Interrupt) : list obs :=
  match evs with
  | [] => []
  | e :: evs => let o := step e s in o :: run evs (after o)
  end.

Definition final (s : Interrupt) (tr : list obs) : Interrupt :=
  default s (last (map after tr)).

(** A settled event is published by [xSemaphoreGive]. *)
Definition publishes (o : obs) : bool :=
  bool_decide (SemaphoreGive ∈ calls o).

Definition settled (tr : list obs) : list obs := filter (fun o => publishes o = true) tr.

(** [LastState()] right after each settled event. *)
Definition settled_states (tr : list obs) : list GpioState :=
  map (fun o => Interrupt.LastState (after o)) (settled tr).

Definition consumed (tr : list obs) : Z :=
  Z.of_nat (length (filter (fun o => took o = true) tr)).

Definition first_reading (evs : list event) : option GpioState :=
  head (omap (fun e => match e with Process n => Some n | _ => None end) evs).

(** Along a run from [s], [fsm_state_] changes only in steps that
    publish a settled event. *)
Fixpoint fsm_changes_published (s : Interrupt) (tr : list obs) : Prop :=
  match tr with
  | [] => True
  | o :: tr =>
      (Interrupt.FsmState (after o) <> Interrupt.FsmState s -> publishes o = true)
      /\ fsm_changes_published (after o) tr
  end.

(** [v], [!v], [v], ... of length [n] *)
Fixpoint alternate (v : GpioState) (n : nat) : list GpioState :=
  match n with
  | O => []
  | S n => v :: alternate (GpioState.operator_not v) n
  end.

End Life.

(** ** interrupt.cpp: the globals, the registry and the two contexts *)

(** How a call ends. *)
Inductive outcome (A : Type) : Type :=
| Done (a : A)
| Aborted  (** a failed [assert], an uncaught exception, a null dereference *)
| Blocked. (** waits for what the state does not provide *)

Arguments Done {A} a.
Arguments Aborted {A}.
Arguments Blocked {A}.

#[export] Instance outcome_ret : MRet outcome := @Done.

#[export] Instance outcome_bind : MBind outcome :=
  fun A B (f : A -> outcome B) (m : outcome A) =>
    match m with
    | Done a => f a
    | Aborted => Aborted
    | Blocked => Blocked
    end.

Definition c_assert (b : bool) : outcome unit :=
  if b then Done tt else Aborted.

(** core.h: [1UL << bitPosition], [unsigned long] being 32 bits wide.
    C++ gives the shift no meaning from 32 on; the word is cut to 32
    bits here. *)
Definition CreateBitMaskAt (bitPosition : Z) : Z :=
  Z.land (Z.shiftl 1 bitPosition) UINT32_MAX.

(** esp_err.h *)
Definition ESP_OK : Z := 0.

Definition ESP_ERR_INVALID_STATE : Z := 259.

(** [ESP_ERROR_CHECK(x)]: aborts unless [x] is [ESP_OK]. *)
Definition ESP_ERROR_CHECK (x : Z) : outcome unit :=
  if x =? ESP_OK then Done tt else Aborted.

(** core.cpp: one call of [InstallIsrService].  [interrupt_initialized]
    is the function-local static flag; [ret] is what
    [gpio_install_isr_service] returns if it is called.  The result is
    the flag afterwards and whether the driver was called. *)
Definition InstallIsrService (ret : Z) (interrupt_initialized : bool)
    : outcome (bool * bool) :=
  if negb interrupt_initialized
  then
    if ret =? ESP_ERR_INVALID_STATE then Done (true, true)
    else if ret =? ESP_OK then Done (true, true)
    else (_ ← ESP_ERROR_CHECK ret; Done (interrupt_initialized, true))
  else Done (interrupt_initialized, false).

Definition MAX_INTERRUPTS : Z := 32.

(** [std::bitset<MAX_INTERRUPTS>] as the word of its bits *)
Module bitset.

Definition none (b : Z) : bool := b =? 0.

Definition all (b : Z) : bool := b =? UINT32_MAX.

(** [operator[]] *)
Definition test (b pos : Z) : bool := Z.testbit b pos.

(** [set(pos)] throws [std::out_of_range] from [size()] on. *)
Definition set (b pos : Z) : outcome Z :=
  if pos <? MAX_INTERRUPTS then Done (Z.lor b (Z.shiftl 1 pos)) else Aborted.

(** The first set bit among the [n] positions from [i] on, [size()] when
    there is none. *)
Fixpoint find_from (b i : Z) (n : nat) : Z :=
  match n with
  | O => MAX_INTERRUPTS
  | S n => if Z.testbit b i then i else find_from b (i + 1) n
  end.

Definition _Find_first (b : Z) : Z := find_from b 0 (Z.to_nat MAX_INTERRUPTS).

Definition _Find_next (b prev : Z) : Z :=
  find_from b (prev + 1) (Z.to_nat (MAX_INTERRUPTS - (prev + 1))).

End bitset.

(** An [Interrupt *]: the address of an object. *)
Definition ptr : Set := nat.

(** Where the daemon task stands in [DaemonTask]. *)
Inductive daemon_pc : Set :=
| Waiting
    (** in [ulTaskNotifyTake(pdTRUE, portMAX_DELAY)] *)
| LoopHead (notify_value i : Z)
    (** at the loop condition [i < notify_value.size()] *)
| HoldsMutex (notify_value i : Z)
    (** between [xSemaphoreTake] and [xSemaphoreGive] *)
| Calls (notify_value i : Z) (interrupt_ptr : ptr)
    (** at [interrupt_ptr->Debouncer(interrupt_ptr->RawState())] *)
| Deleted.

Record Task : Set := mkTask {
  pc : daemon_pc;
  ulNotifiedValue : Z }.

(** The file-scope variables of interrupt.cpp, the function-local static
    [previous_state] of [Debouncer], the live [Interrupt] objects, the
    daemon tasks created so far (a task handle is an index in [tasks]),
    and the function-local static [interrupt_initialized] of
    [InstallIsrService]. *)
Record World : Type := mkWorld {
  objects : gmap ptr Interrupt;
  gpio_to_id_map : gmap Z Z;
  id_to_interrupt_map : gmap Z ptr;
  used_ids : Z;
  global_vars_mutex : option Semaphore;
  interrupt_daemon_task_handle : option nat;
  previous_state : GpioState;
  tasks : list Task;
  interrupt_initialized : bool }.

Definition set_objects (v : gmap ptr Interrupt) (w : World) : World :=
  mkWorld v (gpio_to_id_map w) (id_to_interrupt_map w) (used_ids w)
    (global_vars_mutex w) (interrupt_daemon_task_handle w) (previous_state w)
    (tasks w) (interrupt_initialized w).

Definition set_gpio_to_id_map (v : gmap Z Z) (w : World) : World :=
  mkWorld (objects w) v (id_to_interrupt_map w) (used_ids w)
    (global_vars_mutex w) (interrupt_daemon_task_handle w) (previous_state w)
    (tasks w) (interrupt_initialized w).

Definition set_id_to_interrupt_map (v : gmap Z ptr) (w : World) : World :=
  mkWorld (objects w) (gpio_to_id_map w) v (used_ids w)
    (global_vars_mutex w) (interrupt_daemon_task_handle w) (previous_state w)
    (tasks w) (interrupt_initialized w).

Definition set_used_ids (v : Z) (w : World) : World :=
  mkWorld (objects w) (gpio_to_id_map w) (id_to_interrupt_map w) v
    (global_vars_mutex w) (interrupt_daemon_task_handle w) (previous_state w)
    (tasks w) (interrupt_initialized w).

Definition set_global_vars_mutex (v : option Semaphore) (w : World) : World :=
  mkWorld (objects w) (gpio_to_id_map w) (id_to_interrupt_map w) (used_ids w)
    v (interrupt_daemon_task_handle w) (previous_state w) (tasks w)
    (interrupt_initialized w).

Definition set_interrupt_daemon_task_handle (v : option nat) (w : World) : World :=
  mkWorld (objects w) (gpio_to_id_map w) (id_to_interrupt_map w) (used_ids w)
    (global_vars_mutex w) v (previous_state w) (tasks w)
    (interrupt_initialized w).

Definition set_previous_state (v : GpioState) (w : World) : World :=
  mkWorld (objects w) (gpio_to_id_map w) (id_to_interrupt_map w) (used_ids w)
    (global_vars_mutex w) (interrupt_daemon_task_handle w) v (tasks w)
    (interrupt_initialized w).

Definition set_tasks (v : list Task) (w : World) : World :=
  mkWorld (objects w) (gpio_to_id_map w) (id_to_interrupt_map w) (used_ids w)
    (global_vars_mutex w) (interrupt_daemon_task_handle w) (previous_state w) v
    (interrupt_initialized w).

Definition set_interrupt_initialized (v : bool) (w : World) : World :=
  mkWorld (objects w) (gpio_to_id_map w) (id_to_interrupt_map w) (used_ids w)
    (global_vars_mutex w) (interrupt_daemon_task_handle w) (previous_state w)
    (tasks w) v.

(** Before any object exists: empty maps, no bit used, null handles,
    [previous_state] default-constructed and the ISR service not
    installed. *)
Definition power_on : World :=
  mkWorld ∅ ∅ ∅ 0 None None GpioState.default [] false.

(** A mutex is a semaphore of length one that is full when free. *)
Definition xSemaphoreCreateMutex : Semaphore := mkSemaphore 1 1.

(** [xSemaphoreTake(global_vars_mutex, portMAX_DELAY)] from a task *)
Definition take_global_vars_mutex (w : World) : outcome World :=
  match global_vars_mutex w with
  | None => Aborted
  | Some q =>
      let r := xSemaphoreTake q in
      if fst r then Done (set_global_vars_mutex (Some (snd r)) w) else Blocked
  end.

(** [xSemaphoreGive(global_vars_mutex)], also [xSemaphoreGiveFromISR] *)
Definition give_global_vars_mutex (w : World) : outcome World :=
  match global_vars_mutex w with
  | None => Aborted
  | Some q => Done (set_global_vars_mutex (Some (snd (xSemaphoreGive q))) w)
  end.

(** What FreeRTOS and the GPIO driver answer to the calls of one
    construction, in the order of the calls: whether a creation returns
    a handle, and the values the other calls return.  An answer is read
    only if the call is made. *)
Record answers : Set := mkAnswers {
  protect_timer_semaphore_created : bool;
  interrupt_counting_semaphore_created : bool;
  global_vars_mutex_created : bool;
  xTaskCreatePinnedToCore_ret : Z;
  change_state_timer_created : bool;
  gpio_config_ret : Z;
  gpio_install_isr_service_ret : Z;
  gpio_isr_handler_add_ret : Z }.

(** projdefs.h *)
Definition pdPASS : Z := 1.

(** Every creation returns a handle and every call succeeds. *)
Definition all_well : answers :=
  mkAnswers true true true pdPASS true ESP_OK ESP_OK ESP_OK.

(** [xTaskCreatePinnedToCore(DaemonTask, ..., &interrupt_daemon_task_handle,
    APP_CORE_ID)] returning [ret]: with [pdPASS] there is a new task at
    the top of [DaemonTask] with nothing notified, and the handle names
    it; with another value there is no task and the handle is not
    written. *)
Definition xTaskCreatePinnedToCore (ret : Z) (w : World) : World :=
  if ret =? pdPASS
  then
    set_interrupt_daemon_task_handle (Some (length (tasks w)))
      (set_tasks (tasks w ++ [mkTask Waiting 0]) w)
  else w.

Definition vTaskDelete (w : World) : World :=
  match interrupt_daemon_task_handle w with
  | Some h => set_tasks (alter (fun t => mkTask Deleted (ulNotifiedValue t)) h (tasks w)) w
  | None => w
  end.

(** The search loop of [FindFreeId], [n] positions from [i] on. *)
Fixpoint FindFreeId_loop (used i : Z) (n : nat) : Z :=
  match n with
  | O => MAX_INTERRUPTS
  | S n => if negb (bitset.test used i) then i else FindFreeId_loop used (i + 1) n
  end.

(** The first loop of [FindFreeId]: every id in the map is marked. *)
Definition mark_used (used : Z) (kvs : list (Z * Z)) : outcome Z :=
  foldr (fun kvPair acc => b ← acc; bitset.set b (snd kvPair)) (Done used) kvs.

Definition FindFreeId (w : World) : outcome (Z * World) :=
  used ← mark_used (used_ids w) (map_to_list (gpio_to_id_map w));
  Done (FindFreeId_loop used 0 (Z.to_nat MAX_INTERRUPTS), set_used_ids used w).

(** [created] tells whether [xSemaphoreCreateMutex], if it is called,
    returns a handle; [assert(global_vars_mutex)] follows the call. *)
Definition CreateGlobalVarsMutexIfNotCreated (created : bool) (w : World)
    : outcome World :=
  match global_vars_mutex w with
  | None =>
      let w :=
        set_global_vars_mutex
          (if created then Some xSemaphoreCreateMutex else None) w in
      match global_vars_mutex w with
      | Some _ => Done w
      | None => Aborted
      end
  | Some _ => Done w
  end.

Definition AssignIdStoreInMapsAndCreateDaemonTask (a : answers) (this : ptr)
    (w : World) : outcome World :=
  w ← CreateGlobalVarsMutexIfNotCreated (global_vars_mutex_created a) w;
  w ← take_global_vars_mutex w;
  w ← (if bitset.none (used_ids w)
       then
         let ret := xTaskCreatePinnedToCore_ret a in
         let w := xTaskCreatePinnedToCore ret w in
         _ ← c_assert (negb (ret =? 0));
         Done w
       else Done w);
  _ ← c_assert (negb (bitset.all (used_ids w)));
  r ← FindFreeId w;
  let id := fst r in
  let w := snd r in
  match objects w !! this with
  | None => Aborted
  | Some obj =>
      let w := set_gpio_to_id_map (<[Interrupt.GpioNum obj := id]> (gpio_to_id_map w)) w in
      let w := set_id_to_interrupt_map (<[id := this]> (id_to_interrupt_map w)) w in
      give_global_vars_mutex w
  end.

Definition FreeIdUnmapAndDeleteDaemonTask (this : ptr) (w : World)
    : outcome World :=
  w ← take_global_vars_mutex w;
  _ ← c_assert false;
  let w := if bitset.none (used_ids w) then vTaskDelete w else w in
  give_global_vars_mutex w.

(** The constructor, for an object placed at [this], the platform
    answering [a]: the two counting semaphores with their asserts, the
    registration, the timer with its assert, then the GPIO driver:
    [gpio_config], [InstallIsrService(0)] and [gpio_isr_handler_add].
    The object is [Interrupt.init], which holds the timer as
    [xTimerCreate] returns it; nothing reads the timer before it is
    created. *)
Definition Interrupt_ctor (a : answers) (this : ptr)
    (gpio_num low_to_high_time_ticks high_to_low_time_ticks : Z)
    (inverse_logic : bool) (w : World) : outcome World :=
  let obj :=
    Interrupt.init gpio_num low_to_high_time_ticks high_to_low_time_ticks
      inverse_logic in
  _ ← c_assert (protect_timer_semaphore_created a);
  _ ← c_assert (interrupt_counting_semaphore_created a);
  w ← AssignIdStoreInMapsAndCreateDaemonTask a this
        (set_objects (<[this := obj]> (objects w)) w);
  _ ← c_assert (change_state_timer_created a);
  _ ← ESP_ERROR_CHECK (gpio_config_ret a);
  r ← InstallIsrService (gpio_install_isr_service_ret a) (interrupt_initialized w);
  let w := set_interrupt_initialized (fst (r : bool * bool)) w in
  _ ← ESP_ERROR_CHECK (gpio_isr_handler_add_ret a);
  Done w.

(** The destructor: nothing after the unregistration is reached unless
    it returns. *)
Definition Interrupt_dtor (this : ptr) (w : World) : outcome World :=
  w ← FreeIdUnmapAndDeleteDaemonTask this w;
  Done (set_objects (delete this (objects w)) w).

Definition Debouncer (this : ptr) (new_state : GpioState) (w : World)
    : outcome World :=
  if negb (GpioState.eqb (previous_state w) new_state)
  then
    let w := set_previous_state new_state w in
    match objects w !! this with
    | None => Aborted
    | Some obj =>
        Done (set_objects
                (<[this := fst (Interrupt.ProcessInterrupt new_state obj)]> (objects w)) w)
    end
  else Done w.

(** [xTaskNotifyFromISR(interrupt_daemon_task_handle, ulValue, eSetBits,
    ...)] *)
Definition xTaskNotifyFromISR (ulValue : Z) (w : World) : outcome World :=
  match interrupt_daemon_task_handle w with
  | None => Aborted
  | Some h =>
      Done (set_tasks
              (alter (fun t => mkTask (pc t) (Z.lor (ulNotifiedValue t) ulValue)) h
                 (tasks w)) w)
  end.

(** [InterruptHandler(arg)] when [gpio_get_level] reads
    [raw_gpio_level].  The assignment to [RawState()] leaves the object
    as it is, so the heap of objects is not written. *)
Definition InterruptHandler (arg : ptr) (raw_gpio_level : Z) (w : World)
    : outcome World :=
  match objects w !! arg with
  | None => Aborted
  | Some interrupt_obj =>
      let obj := snd (Interrupt.assign_RawState raw_gpio_level interrupt_obj) in
      match global_vars_mutex w with
      | None => Aborted
      | Some q =>
          let r := xSemaphoreTake q in
          if fst r
          then
            let w := set_global_vars_mutex (Some (snd r)) w in
            (** [gpio_to_id_map[...]] enters a missing key with id 0 *)
            let id := default 0 (gpio_to_id_map w !! Interrupt.GpioNum obj) in
            let w := set_gpio_to_id_map (<[Interrupt.GpioNum obj := id]> (gpio_to_id_map w)) w in
            w ← xTaskNotifyFromISR (CreateBitMaskAt id) w;
            give_global_vars_mutex w
          else Done w
      end
  end.

Definition set_task (h : nat) (t : Task) (w : World) : World :=
  set_tasks (<[h := t]> (tasks w)) w.

(** The daemon task with handle [h] runs from where it stands to its
    next stop: out of the wait, into the mutex, out of it with the
    object looked up, through the call of [Debouncer]. *)
Definition DaemonTask (h : nat) (w : World) : outcome World :=
  match tasks w !! h with
  | None => Blocked
  | Some t =>
      match pc t with
      | Waiting =>
          let notify_value := ulNotifiedValue t in
          if notify_value =? 0 then Blocked
          else Done (set_task h (mkTask (LoopHead notify_value (bitset._Find_first notify_value)) 0) w)
      | LoopHead notify_value i =>
          if i <? MAX_INTERRUPTS
          then
            w ← take_global_vars_mutex w;
            Done (set_task h (mkTask (HoldsMutex notify_value i) (ulNotifiedValue t)) w)
          else Done (set_task h (mkTask Waiting (ulNotifiedValue t)) w)
      | HoldsMutex notify_value i =>
          (** a missing id is entered with a null pointer, which the
              call that follows dereferences *)
          match id_to_interrupt_map w !! i with
          | None => Aborted
          | Some interrupt_ptr =>
              w ← give_global_vars_mutex w;
              Done (set_task h (mkTask (Calls notify_value i interrupt_ptr) (ulNotifiedValue t)) w)
          end
      | Calls notify_value i interrupt_ptr =>
          match objects w !! interrupt_ptr with
          | None => Aborted
          | Some obj =>
              w ← Debouncer interrupt_ptr (Interrupt.RawState obj) w;
              Done (set_task h (mkTask (LoopHead notify_value (bitset._Find_next notify_value i)) (ulNotifiedValue t)) w)
          end
      | Deleted => Blocked
      end
  end.

(** The two contexts interleave at these stops. *)
Inductive action : Set :=
| Edge (arg : ptr) (raw_gpio_level : Z)
| Daemon (h : nat).

Definition act (a : action) (w : World) : outcome World :=
  match a with
  | Edge arg raw_gpio_level => InterruptHandler arg raw_gpio_level w
  | Daemon h => DaemonTask h w
  end.

Fixpoint acts (l : list action) (w : World) : outcome World :=
  match l with
  | [] => Done w
  | a :: l => w ← act a w; acts l w
  end.

(** Objects at addresses [1 .. n] on GPIO lines [0 .. n-1], every
    creation and driver call succeeding. *)
Fixpoint construct_many (n : nat) (w : World) : outcome World :=
  match n with
  | O => Done w
  | S n =>
      w ← construct_many n w;
      Interrupt_ctor all_well (S n) (Z.of_nat n) 0 0 false w
  end.

(** ** Sample objects

    The object of examples/interrupt_example.cpp: GPIO 3, 20 ticks both
    ways, inverted logic. *)

Definition bed_interrupt : Interrupt := Interrupt.init 3 20 20 true.

(** the same members with [fsm_state_] at [Undefined] *)
Definition bed_unsettled : Interrupt :=
  Interrupt.set_fsm_state_ Undefined bed_interrupt.

(** the raw state went low: the timer runs *)
Definition bed_awaiting_low : Interrupt :=
  fst (Interrupt.ProcessInterrupt Low bed_interrupt).

Definition five_pending : Interrupt :=
  Interrupt.set_interrupt_counting_semaphore_ (mkSemaphore 5 UBASETYPE_MAX)
    bed_interrupt.

(** The first raw state processed is [Low], it bounces within the
    debounce time, stays [Low] until the timer expires, and the consumer
    takes one interrupt. *)
Definition bed_scenario : list Life.event :=
  [Life.Process Low; Life.Process High; Life.Process Low; Life.TimerExpiry;
   Life.Consume].

(** ** Sample worlds

    Two objects as in examples/interrupt_example.cpp: a PIR sensor on
    GPIO 2 at address [pir] and the bed contact on GPIO 3, with inverted
    logic, at address [bed]; every creation and driver call succeeds. *)

Definition done_or (d : World) (o : outcome World) : World :=
  match o with Done w => w | _ => d end.

Definition pir : ptr := 1%nat.

Definition bed : ptr := 2%nat.

Definition one_source : World :=
  done_or power_on (Interrupt_ctor all_well bed 3 20 20 true power_on).

Definition two_sources : World :=
  done_or power_on
    (w ← Interrupt_ctor all_well pir 2 100 5000 false power_on;
     Interrupt_ctor all_well bed 3 20 20 true w).

(** Thirty-two objects on the lines 0 to 31. *)
Definition full_house : World := done_or power_on (construct_many 32 power_on).

(** ** What the hand-off keeps

    The registry mutex is free. *)
Definition mutex_free (w : World) : Prop :=
  exists q, global_vars_mutex w = Some q /\ 0 < uxCount q.

(** The registry mutex is taken. *)
Definition mutex_taken (w : World) : Prop :=
  exists q, global_vars_mutex w = Some q /\ uxCount q = 0.

(** Slot [id] is pending for the daemon task [h]: its bit is set in the
    notification word of the task, or in the value the task has read and
    not yet scanned past. *)
Definition pending (h : nat) (id : Z) (w : World) : Prop :=
  exists t, tasks w !! h = Some t /\
    (Z.testbit (ulNotifiedValue t) id = true \/
     match pc t with
     | LoopHead notify_value i
     | HoldsMutex notify_value i
     | Calls notify_value i _ => i <= id /\ Z.testbit notify_value id = true
     | Waiting | Deleted => False
     end).

(** The PIR line rose, the daemon task woke up and stands between
    [xSemaphoreTake] and [xSemaphoreGive]. *)
Definition daemon_in_mutex : World :=
  done_or power_on (acts [Edge pir 1; Daemon 1%nat; Daemon 1%nat] two_sources).

(** ... there the bed line falls, and the daemon task goes on until it
    waits again. *)
Definition after_bed_edge : World :=
  done_or power_on
    (acts [Edge bed 0; Daemon 1%nat; Daemon 1%nat; Daemon 1%nat]
       daemon_in_mutex).

(** The bed line falls while the daemon task waits. *)
Definition bed_edge : World :=
  done_or power_on (act (Edge bed 0) two_sources).

(** ** Further definitions *)

(** The delay [FsmTransition] picks for a new state. *)
Definition wait_time_for (new_state : GpioState) (s : Interrupt) : Z :=
  if GpioState.eqb new_state High
  then Interrupt.GoHighTime s else Interrupt.GoLowTime s.

(** A running timer has a period that is not zero. *)
Definition timer_armed (s : Interrupt) : Prop :=
  active (Interrupt.change_state_timer_ s) = true ->
  period (Interrupt.change_state_timer_ s) <> 0.

(** A running timer was armed by [FsmTransition] with the delays as they
    are: its period is not zero and is one of the two delays of the
    object. *)
Definition timer_armed_by_transition (s : Interrupt) : Prop :=
  active (Interrupt.change_state_timer_ s) = true ->
  period (Interrupt.change_state_timer_ s) <> 0 /\
  (period (Interrupt.change_state_timer_ s) = Interrupt.GoHighTime s \/
   period (Interrupt.change_state_timer_ s) = Interrupt.GoLowTime s).

(** No delay is assigned in [evs]. *)
Definition delays_kept (evs : list Life.event) : Prop :=
  Forall (fun e => match e with
                   | Life.SetGoHighTime _ | Life.SetGoLowTime _ => False
                   | _ => True
                   end) evs.

(** The registry is consistent: the ids held by the lines are between 0
    and [MAX_INTERRUPTS]; no two lines hold the same id below
    [MAX_INTERRUPTS]; and the ids that have an object are those marked
    in [used_ids] or held by a line. *)
Record registry_ok (w : World) : Prop := mk_registry_ok {
  ids_in_range :
    forall gpio id, gpio_to_id_map w !! gpio = Some id ->
                    0 <= id <= MAX_INTERRUPTS;
  ids_unique :
    forall g1 g2 id,
      gpio_to_id_map w !! g1 = Some id -> gpio_to_id_map w !! g2 = Some id ->
      id < MAX_INTERRUPTS -> g1 = g2;
  ids_with_object :
    forall j, is_Some (id_to_interrupt_map w !! j) <->
              0 <= j /\
              (Z.testbit (used_ids w) j = true \/
               exists gpio, gpio_to_id_map w !! gpio = Some j) }.

(** The answers with which a construction in [w] goes through: each
    creation that is made returns a handle, [xTaskCreatePinnedToCore],
    if it is called, returns a value other than zero, and each driver
    call that is made returns [ESP_OK], or [ESP_ERR_INVALID_STATE] for
    [gpio_install_isr_service]. *)
Record answers_suffice (a : answers) (w : World) : Prop := mk_answers_suffice {
  suffice_protect_timer_semaphore : protect_timer_semaphore_created a = true;
  suffice_interrupt_counting_semaphore :
    interrupt_counting_semaphore_created a = true;
  suffice_global_vars_mutex :
    global_vars_mutex w = None -> global_vars_mutex_created a = true;
  suffice_xTaskCreatePinnedToCore :
    bitset.none (used_ids w) = true -> xTaskCreatePinnedToCore_ret a <> 0;
  suffice_change_state_timer : change_state_timer_created a = true;
  suffice_gpio_config : gpio_config_ret a = ESP_OK;
  suffice_gpio_install_isr_service :
    interrupt_initialized w = false ->
    gpio_install_isr_service_ret a = ESP_OK \/
    gpio_install_isr_service_ret a = ESP_ERR_INVALID_STATE;
  suffice_gpio_isr_handler_add : gpio_isr_handler_add_ret a = ESP_OK }.

(** ** core.cpp: [InstallIsrService] called again and again *)

(** Calls one after the other, the driver answering [rets]: the flag at
    the end and how often the driver was called. *)
Fixpoint InstallIsrService_calls (rets : list Z) (interrupt_initialized : bool)
    : outcome (bool * nat) :=
  match rets with
  | [] => Done (interrupt_initialized, O)
  | ret :: rets =>
      r ← InstallIsrService ret interrupt_initialized;
      r' ← InstallIsrService_calls rets (fst r);
      Done (fst r', if snd (r : bool * bool) then S (snd r') else snd r')
  end.

(** ** The loop of [DaemonTask] as a whole *)

(** The positions the [for] loop visits from [i] on, [_Find_next] giving
    the next one. *)
Fixpoint scan_from (notify_value i : Z) (fuel : nat) : list Z :=
  match fuel with
  | O => []
  | S fuel =>
      if i <? MAX_INTERRUPTS
      then i :: scan_from notify_value (bitset._Find_next notify_value i) fuel
      else []
  end.

(** ... from [_Find_first] on; the loop ends within 32 rounds. *)
Definition scan (notify_value : Z) : list Z :=
  scan_from notify_value (bitset._Find_first notify_value)
    (S (Z.to_nat MAX_INTERRUPTS)).

(** The body of the loop for the positions [ids], without the stops in
    between: the object of the id, then [Debouncer] on its raw state. *)
Fixpoint dispatch (ids : list Z) (w : World) : outcome World :=
  match ids with
  | [] => Done w
  | i :: ids =>
      match id_to_interrupt_map w !! i with
      | None => Aborted
      | Some interrupt_ptr =>
          match objects w !! interrupt_ptr with
          | None => Aborted
          | Some obj =>
              w ← Debouncer interrupt_ptr (Interrupt.RawState obj) w;
              dispatch ids w
          end
      end
  end.

(** The bed line fell while the daemon task waited: what one round of
    the loop then does. *)
Definition bed_dispatched : World :=
  done_or power_on (dispatch (scan 2) bed_edge).

(** ** wifi.cpp: the event handler and the wait for the connection *)

Module WiFi.

(** esp_err.h *)
Definition ESP_FAIL : Z := -1.

Definition WIFI_CONNECTED_BIT : Z := CreateBitMaskAt 0.

Definition WIFI_FAIL_BIT : Z := CreateBitMaskAt 1.

(** What [EventHandler] tells apart: the event base and, within it, the
    event ids it has a case for. *)
Inductive event : Set :=
| WIFI_EVENT_STA_START
| WIFI_EVENT_STA_DISCONNECTED
| WIFI_EVENT_unhandled
| IP_EVENT_STA_GOT_IP
| IP_EVENT_unhandled
| other_event_base.

(** The static [s_retry_num] of [EventHandler], the file-scope
    [max_reconnection_retries], the bits of [wifi_event_group], and the
    number of calls of [esp_wifi_connect] so far. *)
Record state : Set := mkState {
  s_retry_num : Z;
  max_reconnection_retries : Z;
  wifi_event_group : Z;
  esp_wifi_connect_calls : Z }.

Definition xEventGroupSetBits (bits uxBitsToSet : Z) : Z := Z.lor bits uxBitsToSet.

Definition EventHandler (e : event) (st : state) : state :=
  match e with
  | WIFI_EVENT_STA_START =>
      mkState (s_retry_num st) (max_reconnection_retries st)
        (wifi_event_group st) (esp_wifi_connect_calls st + 1)
  | WIFI_EVENT_STA_DISCONNECTED =>
      if s_retry_num st <? max_reconnection_retries st
      then
        mkState ((s_retry_num st + 1) mod 2 ^ 32) (max_reconnection_retries st)
          (wifi_event_group st) (esp_wifi_connect_calls st + 1)
      else
        mkState (s_retry_num st) (max_reconnection_retries st)
          (xEventGroupSetBits (wifi_event_group st) WIFI_FAIL_BIT)
          (esp_wifi_connect_calls st)
  | IP_EVENT_STA_GOT_IP =>
      mkState 0 (max_reconnection_retries st)
        (xEventGroupSetBits (wifi_event_group st) WIFI_CONNECTED_BIT)
        (esp_wifi_connect_calls st)
  | WIFI_EVENT_unhandled | IP_EVENT_unhandled | other_event_base => st
  end.

(** After [ConnectToSTA(ssid, pass, max_retries)]: the event group is
    new and nothing was counted. *)
Definition connecting (max_retries : Z) : state := mkState 0 max_retries 0 0.

Definition handle_all (evs : list event) (st : state) : state :=
  fold_left (fun st e => EventHandler e st) evs st.

(** [xEventGroupWaitBits(..., WIFI_CONNECTED_BIT | WIFI_FAIL_BIT, pdFALSE,
    pdFALSE, portMAX_DELAY)] waits until one of the two bits is set and
    clears nothing. *)
Definition WaitForWiFiConnection (st : state) : outcome Z :=
  let bits := wifi_event_group st in
  if Z.land bits (Z.lor WIFI_CONNECTED_BIT WIFI_FAIL_BIT) =? 0 then Blocked
  else if negb (Z.land bits WIFI_CONNECTED_BIT =? 0) then Done ESP_OK
  else Done ESP_FAIL.

#[export] Instance event_eq_dec : EqDecision event.
Proof. solve_decision. Defined.

Definition count_event (e : event) (evs : list event) : Z :=
  Z.of_nat (length (filter (fun x => x = e) evs)).

(** What every run of the handler keeps, counted against the events
    handled since [ConnectToSTA]. *)
Record handled (m : Z) (evs : list event) (st : state) : Prop := {
  handled_max : max_reconnection_retries st = m;
  handled_retry : 0 <= s_retry_num st <= m;
  handled_retry_disconnects :
    s_retry_num st <= count_event WIFI_EVENT_STA_DISCONNECTED evs;
  handled_connects :
    count_event WIFI_EVENT_STA_START evs <= esp_wifi_connect_calls st
    <= count_event WIFI_EVENT_STA_START evs
       + m * count_event IP_EVENT_STA_GOT_IP evs + s_retry_num st;
  handled_bits : 0 <= wifi_event_group st < 4;
  handled_connected :
    Z.testbit (wifi_event_group st) 0 = true
    <-> 0 < count_event IP_EVENT_STA_GOT_IP evs;
  handled_fail :
    Z.testbit (wifi_event_group st) 1 = true
    -> m < count_event WIFI_EVENT_STA_DISCONNECTED evs }.

End WiFi.

(** * Properties *)

(** ** GpioState *)

Section GpioStateFacts.

Import GpioState.

Lemma GpioState_eqb_eq (a b : GpioState) : eqb a b = true <-> a = b.
Proof. destruct a, b; cbv; split; congruence. Qed.

Lemma GpioState_eqb_neq (a b : GpioState) : eqb a b = false <-> a <> b.
Proof. destruct a, b; cbv; split; congruence. Qed.

Lemma GpioState_eqb_refl (a : GpioState) : eqb a a = true.
Proof. by destruct a. Qed.

Lemma ctor_is_level (state : Z) (inverse_logic : bool) :
  is_level (ctor state inverse_logic).
Proof.
  unfold is_level, ctor, Value_of_bool.
  destruct inverse_logic, (to_bool state); simpl; auto.
Qed.

Lemma operator_not_Low : operator_not Low = High.
Proof. reflexivity. Qed.

Lemma operator_not_High : operator_not High = Low.
Proof. reflexivity. Qed.

(** The enumerator [Undefined] is -1, which converts to [true]: the
    [default:] label yields [High], where the comment of the operator
    says the state remains [Undefined]. *)
Lemma operator_not_Undefined : operator_not Undefined = High.
Proof. reflexivity. Qed.

Lemma operator_not_is_level (g : GpioState) : is_level (operator_not g).
Proof. destruct g; cbv; auto. Qed.

Lemma operator_not_involutive (g : GpioState) :
  is_level g -> operator_not (operator_not g) = g.
Proof. by intros [-> | ->]. Qed.

Lemma operator_not_other (g h : GpioState) :
  is_level g -> is_level h -> h <> g -> operator_not g = h.
Proof. intros [-> | ->] [-> | ->]; cbv; congruence. Qed.

Lemma is_level_defined (g : GpioState) : is_level g -> g <> Undefined.
Proof. intros [-> | ->]; discriminate. Qed.

(** C10.  The converting constructor yields [Low] or [High] whatever the
    input value and the [inverse_logic] flag, so [Undefined] comes from
    the default constructor alone: without the flag a zero input gives
    [Low] and any other input [High], with the flag a zero input gives
    [High] and any other input [Low].  Constructing with
    [inverse_logic = true] gives [operator!] of constructing the same
    input with [inverse_logic = false], and the other way round, where
    [operator!] turns [Low] into [High] and [High] into [Low]. *)
Theorem ctor_level_and_inverse (state : Z) (inverse_logic : bool) :
  default = Undefined /\
  is_level (ctor state inverse_logic) /\
  ctor state inverse_logic <> Undefined /\
  ctor state false = (if state =? 0 then Low else High) /\
  ctor state true = (if state =? 0 then High else Low) /\
  operator_not Low = High /\
  operator_not High = Low /\
  ctor state true = operator_not (ctor state false) /\
  ctor state false = operator_not (ctor state true).
Proof.
  split; [reflexivity |].
  split; [apply ctor_is_level |].
  split; [apply is_level_defined, ctor_is_level |].
  unfold ctor, to_bool.
  destruct (state =? 0); repeat split.
Qed.

End GpioStateFacts.

(** ** One object: the counters and the state machine *)

Section InterruptFacts.

Import Interrupt.

(** C8.  With [k] pending interrupts, [RedundantInterrupts] returns
    [k - k mod 2]: an even number, not negative and not above [k]. *)
Theorem RedundantInterrupts_even_below (s : Interrupt) :
  0 <= PendingInterrupts s <= UBASETYPE_MAX ->
  RedundantInterrupts s = PendingInterrupts s - PendingInterrupts s mod 2 /\
  Z.even (RedundantInterrupts s) = true /\
  0 <= RedundantInterrupts s <= PendingInterrupts s.
Proof.
  unfold RedundantInterrupts, UBASETYPE_MAX, UINT32_MAX.
  set (k := PendingInterrupts s). cbv zeta. intros Hk.
  assert (Hm : 0 <= k mod 2 < 2) by (apply Z.mod_pos_bound; lia).
  assert (Hle : k mod 2 <= k).
  { destruct (Z.eq_dec k 0) as [-> | ?]; [reflexivity |]. 
    destruct (Z.eq_dec k 1) as [-> | ?]; [reflexivity | lia]. }
  rewrite Z.mod_small by lia.
  split; [reflexivity |]. split; [| lia].
  rewrite (Z.div_mod k 2) at 1 by lia.
  replace (2 * (k / 2) + k mod 2 - k mod 2) with (2 * (k / 2)) by lia.
  apply Z.even_spec. by exists (k / 2).
Qed.

Lemma RedundantInterrupts_even_below_witness :
  0 <= PendingInterrupts five_pending <= UBASETYPE_MAX /\
  RedundantInterrupts five_pending = 4.
Proof.
  split.
  - vm_compute. split; discriminate.
  - refine (proj1 (RedundantInterrupts_even_below five_pending _)).
    vm_compute. split; discriminate.
Defined.

Lemma give_interrupt_counting_semaphore_below (s : Interrupt) :
  PendingInterrupts s < uxMaxCount (interrupt_counting_semaphore_ s) ->
  give_interrupt_counting_semaphore s =
  set_interrupt_counting_semaphore_
    (mkSemaphore (PendingInterrupts s + 1)
       (uxMaxCount (interrupt_counting_semaphore_ s))) s.
Proof.
  intros H. unfold give_interrupt_counting_semaphore, xSemaphoreGive.
  unfold PendingInterrupts, uxSemaphoreGetCount in *.
  by rewrite (proj2 (Z.ltb_lt _ _) H).
Qed.

(** C2.  On an object whose [fsm_state_] is [Undefined],
    [ProcessInterrupt] sets [fsm_state_] to the negation of the new raw
    state and gives the counting semaphore once, which adds one to the
    pending count; the timer is not touched. *)
Theorem ProcessInterrupt_first_reading (s : Interrupt) (new_state : GpioState) :
  FsmState s = Undefined ->
  PendingInterrupts s < uxMaxCount (interrupt_counting_semaphore_ s) ->
  let r := ProcessInterrupt new_state s in
  FsmState (fst r) = GpioState.operator_not new_state /\
  (new_state = Low -> FsmState (fst r) = High) /\
  (new_state = High -> FsmState (fst r) = Low) /\
  PendingInterrupts (fst r) = PendingInterrupts s + 1 /\
  change_state_timer_ (fst r) = change_state_timer_ s /\
  snd r = [SemaphoreGive].
Proof.
  intros Hu Hlt. unfold ProcessInterrupt. rewrite Hu. cbn [GpioState.eqb].
  change (GpioState.Value_to_Z Undefined =? GpioState.Value_to_Z Undefined) with true.
  cbv zeta iota. cbn [fst snd].
  rewrite give_interrupt_counting_semaphore_below by exact Hlt.
  repeat split; try reflexivity; by intros ->.
Qed.

Lemma ProcessInterrupt_first_reading_witness :
  FsmState bed_unsettled = Undefined /\
  PendingInterrupts bed_unsettled
    < uxMaxCount (interrupt_counting_semaphore_ bed_unsettled) /\
  FsmState (fst (ProcessInterrupt High bed_unsettled)) = Low /\
  PendingInterrupts (fst (ProcessInterrupt High bed_unsettled)) = 1.
Proof.
  split; [reflexivity |]. split; [reflexivity |].
  pose proof (ProcessInterrupt_first_reading bed_unsettled High eq_refl eq_refl)
    as (_ & _ & Hh & Hp & _).
  split; [exact (Hh eq_refl) | exact Hp].
Defined.

(** C3.  On an object settled at a level, a new raw level that differs
    from [fsm_state_] arms the one-shot timer, or arms it again, with
    [low_to_high_time_ticks_] when the new level is [High] and with
    [high_to_low_time_ticks_] when it is [Low]; when that delay is zero
    no timer call is made, [fsm_state_] flips to the new level at once
    and the counting semaphore is given once. *)
Theorem ProcessInterrupt_transition (s : Interrupt) (new_state : GpioState) :
  GpioState.is_level (FsmState s) ->
  GpioState.is_level new_state ->
  new_state <> FsmState s ->
  let delay :=
    match new_state with High => GoHighTime s | _ => GoLowTime s end in
  (delay <> 0 ->
   ProcessInterrupt new_state s =
   (set_change_state_timer_ (mkTimer true delay) s, [TimerChangePeriod delay])) /\
  (delay = 0 ->
   PendingInterrupts s < uxMaxCount (interrupt_counting_semaphore_ s) ->
   ProcessInterrupt new_state s =
   (set_interrupt_counting_semaphore_
      (mkSemaphore (PendingInterrupts s + 1)
         (uxMaxCount (interrupt_counting_semaphore_ s)))
      (set_fsm_state_ new_state s),
    [SemaphoreGive])).
Proof.
  intros Hf Hn Hne delay.
  assert (Hu : GpioState.eqb (FsmState s) Undefined = false)
    by (apply GpioState_eqb_neq, is_level_defined, Hf).
  assert (Hd : GpioState.eqb (FsmState s) new_state = false)
    by (apply GpioState_eqb_neq; congruence).
  assert (Hw : (if GpioState.eqb new_state High then GoHighTime s else GoLowTime s)
               = delay) by (subst delay; by destruct new_state).
  unfold ProcessInterrupt, FsmTransition. rewrite Hu, Hd, Hw. cbn [negb].
  split.
  - intros Hnz. by rewrite (proj2 (Z.eqb_neq _ _) Hnz).
  - intros Hz Hlt. rewrite Hz. cbn [Z.eqb negb]. unfold StateChanger.
    rewrite (operator_not_other _ _ Hf Hn Hne).
    by rewrite give_interrupt_counting_semaphore_below.
Qed.

Lemma ProcessInterrupt_transition_witness :
  GpioState.is_level (FsmState bed_interrupt) /\
  GpioState.is_level Low /\
  Low <> FsmState bed_interrupt /\
  ProcessInterrupt Low bed_interrupt =
  (set_change_state_timer_ (mkTimer true 20) bed_interrupt,
   [TimerChangePeriod 20]).
Proof.
  split; [by right |]. split; [by left |]. split; [discriminate |].
  refine (proj1 (ProcessInterrupt_transition bed_interrupt Low _ _ _) _).
  - by right.
  - by left.
  - discriminate.
  - discriminate.
Defined.

(** C4.  On an object settled at a level, a new raw state equal to
    [fsm_state_] stops the timer and changes nothing else: [fsm_state_],
    the pending count and every other member stay as they were, and no
    semaphore is given. *)
Theorem ProcessInterrupt_bounce_back (s : Interrupt) (new_state : GpioState) :
  GpioState.is_level (FsmState s) ->
  new_state = FsmState s ->
  let r := ProcessInterrupt new_state s in
  r = (set_change_state_timer_ (xTimerStop (change_state_timer_ s)) s, [TimerStop]) /\
  active (change_state_timer_ (fst r)) = false /\
  FsmState (fst r) = FsmState s /\
  PendingInterrupts (fst r) = PendingInterrupts s.
Proof.
  intros Hf ->.
  assert (Hu : GpioState.eqb (FsmState s) Undefined = false)
    by (apply GpioState_eqb_neq, is_level_defined, Hf).
  unfold ProcessInterrupt, FsmReset. rewrite Hu, GpioState_eqb_refl. cbn [negb].
  repeat split.
Qed.

Lemma ProcessInterrupt_bounce_back_witness :
  GpioState.is_level (FsmState bed_awaiting_low) /\
  High = FsmState bed_awaiting_low /\
  ProcessInterrupt High bed_awaiting_low =
  (set_change_state_timer_ (mkTimer false 20) bed_interrupt, [TimerStop]).
Proof.
  split; [by right |]. split; [reflexivity |].
  exact (proj1 (ProcessInterrupt_bounce_back bed_awaiting_low High
                  (or_intror eq_refl) eq_refl)).
Defined.

End InterruptFacts.

(** ** One object over time: the parity law *)

Section LifeFacts.

Import Interrupt Life.

Local Ltac split_ifs :=
  repeat match goal with
         | |- context [if ?b then _ else _] => destruct b eqn:?
         end.

Local Ltac step_crush e :=
  destruct e as [new_state | | | level | ticks | ticks];
  unfold step, ProcessInterrupt, FsmTransition, FsmReset, TimerCallback,
    StateChanger, WaitForSingleInterrupt, assign_RawState,
    assign_GoHighTime, assign_GoLowTime,
    give_interrupt_counting_semaphore,
    xSemaphoreGive, xSemaphoreTake, PendingInterrupts, uxSemaphoreGetCount,
    FsmState;
  split_ifs; cbn in *; intros; try done; try lia.

Lemma step_max (e : event) (s : Interrupt) :
  uxMaxCount (interrupt_counting_semaphore_ (after (step e s)))
  = uxMaxCount (interrupt_counting_semaphore_ s).
Proof. step_crush e. Qed.

Lemma step_publishes_took (e : event) (s : Interrupt) :
  publishes (step e s) = true -> took (step e s) = false.
Proof. step_crush e. Qed.

Lemma step_publishes_count (e : event) (s : Interrupt) :
  publishes (step e s) = true ->
  PendingInterrupts s < uxMaxCount (interrupt_counting_semaphore_ s) ->
  PendingInterrupts (after (step e s)) = PendingInterrupts s + 1.
Proof. step_crush e. Qed.

Lemma step_silent_count (e : event) (s : Interrupt) :
  publishes (step e s) = false ->
  PendingInterrupts (after (step e s))
  = PendingInterrupts s - (if took (step e s) then 1 else 0) /\
  (took (step e s) = true -> 0 < PendingInterrupts s).
Proof. step_crush e. Qed.

Lemma step_silent_fsm (e : event) (s : Interrupt) :
  publishes (step e s) = false -> FsmState (after (step e s)) = FsmState s.
Proof. step_crush e. Qed.

Lemma step_publishes_fsm (e : event) (s : Interrupt) :
  GpioState.is_level (FsmState s) ->
  publishes (step e s) = true ->
  FsmState (after (step e s)) = GpioState.operator_not (FsmState s).
Proof.
  intros Hl. apply is_level_defined, GpioState_eqb_neq in Hl. revert Hl. step_crush e.
  all: congruence.
Qed.

Lemma step_publishes_level (e : event) (s : Interrupt) :
  publishes (step e s) = true -> GpioState.is_level (FsmState (after (step e s))).
Proof.
  step_crush e.
  all: apply operator_not_is_level.
Qed.

Lemma step_fresh (e : event) (s : Interrupt) :
  FsmState s = Undefined ->
  active (change_state_timer_ s) = false ->
  match e with
  | Process r =>
      publishes (step e s) = true /\
      FsmState (after (step e s)) = GpioState.operator_not r
  | _ =>
      publishes (step e s) = false /\
      FsmState (after (step e s)) = Undefined /\
      active (change_state_timer_ (after (step e s))) = false
  end.
Proof.
  intros Hu Ht. destruct e as [r | | | level | ticks | ticks]; unfold step.
  - unfold ProcessInterrupt. rewrite Hu. by cbn.
  - rewrite Ht. by cbn.
  - by cbn.
  - by cbn.
  - by cbn.
  - by cbn.
Qed.

Lemma final_cons (s : Interrupt) (o : obs) (tr : list obs) :
  final s (o :: tr) = final (after o) tr.
Proof.
  unfold final. cbn [map]. destruct (map after tr) as [| x l] eqn:E; [done |].
  rewrite last_cons. by destruct (last (x :: l)).
Qed.

Lemma settled_cons (o : obs) (tr : list obs) :
  settled (o :: tr) = if publishes o then o :: settled tr else settled tr.
Proof.
  unfold settled. rewrite filter_cons.
  destruct (publishes o); by case_decide.
Qed.

Lemma consumed_cons (o : obs) (tr : list obs) :
  consumed (o :: tr) = (if took o then 1 else 0) + consumed tr.
Proof.
  unfold consumed. rewrite filter_cons.
  destruct (took o); case_decide; try done; cbn [length]; lia.
Qed.

Lemma run_count (evs : list event) (s : Interrupt) :
  PendingInterrupts s + Z.of_nat (length (settled (run evs s)))
    <= uxMaxCount (interrupt_counting_semaphore_ s) ->
  PendingInterrupts (final s (run evs s))
  = PendingInterrupts s + Z.of_nat (length (settled (run evs s)))
    - consumed (run evs s).
Proof.
  revert s. induction evs as [| e evs IH]; intros s; cbn [run].
  - intros _. unfold final, consumed. cbn [run map last default settled filter length list_filter]. lia.
  - cbv zeta. rewrite final_cons, settled_cons, consumed_cons.
    pose proof (step_max e s) as Hmax.
    destruct (publishes (step e s)) eqn:Hp; intros Hle.
    + cbn [length] in *.
      pose proof (step_publishes_took _ _ Hp) as ->.
      pose proof (step_publishes_count _ _ Hp) as Hc.
      rewrite IH; lia.
    + destruct (step_silent_count _ _ Hp) as [Hc Ht].
      rewrite IH; [lia |]. destruct (took (step e s)); lia.
Qed.

Lemma run_alternates (evs : list event) (s : Interrupt) :
  GpioState.is_level (FsmState s) ->
  settled_states (run evs s)
  = alternate (GpioState.operator_not (FsmState s))
      (length (settled (run evs s))).
Proof.
  revert s. induction evs as [| e evs IH]; intros s Hl; cbn [run]; [done |].
  cbv zeta. unfold settled_states in *. rewrite settled_cons.
  destruct (publishes (step e s)) eqn:Hp.
  - cbn [map length alternate]. unfold LastState at 1.
    pose proof (step_publishes_fsm _ _ Hl Hp) as Hf. unfold FsmState in Hf at 1.
    rewrite Hf. f_equal. rewrite IH.
    + unfold FsmState at 1. by rewrite Hf.
    + unfold FsmState. rewrite Hf. apply operator_not_is_level.
  - rewrite IH; rewrite (step_silent_fsm _ _ Hp); done.
Qed.

Lemma run_fresh (evs : list event) (s : Interrupt) :
  FsmState s = Undefined ->
  active (change_state_timer_ s) = false ->
  settled_states (run evs s)
  = match first_reading evs with
    | Some r => alternate (GpioState.operator_not r) (length (settled (run evs s)))
    | None => []
    end.
Proof.
  revert s. induction evs as [| e evs IH]; intros s Hu Ht; cbn [run]; [done |].
  cbv zeta. pose proof (step_fresh e s Hu Ht) as Hs.
  destruct e as [r | | | level | ticks | ticks].
  - destruct Hs as [Hp Hf]. change (first_reading (Process r :: evs)) with (Some r).
    unfold settled_states. rewrite settled_cons, Hp. cbn [map length alternate].
    unfold LastState at 1. unfold FsmState in Hf at 1. rewrite Hf. f_equal.
    pose proof (run_alternates evs (after (step (Process r) s))) as Ha.
    unfold settled_states, FsmState in Ha. rewrite Hf in Ha.
    apply Ha, operator_not_is_level.
  - destruct Hs as (Hp & Hf & Ha).
    change (first_reading (TimerExpiry :: evs)) with (first_reading evs).
    unfold settled_states in *. rewrite settled_cons, Hp. by apply IH.
  - destruct Hs as (Hp & Hf & Ha).
    change (first_reading (Consume :: evs)) with (first_reading evs).
    unfold settled_states in *. rewrite settled_cons, Hp. by apply IH.
  - destruct Hs as (Hp & Hf & Ha).
    change (first_reading (Capture level :: evs)) with (first_reading evs).
    unfold settled_states in *. rewrite settled_cons, Hp. by apply IH.
  - destruct Hs as (Hp & Hf & Ha).
    change (first_reading (SetGoHighTime ticks :: evs)) with (first_reading evs).
    unfold settled_states in *. rewrite settled_cons, Hp. by apply IH.
  - destruct Hs as (Hp & Hf & Ha).
    change (first_reading (SetGoLowTime ticks :: evs)) with (first_reading evs).
    unfold settled_states in *. rewrite settled_cons, Hp. by apply IH.
Qed.

Lemma run_settled_levels (evs : list event) (s : Interrupt) :
  Forall GpioState.is_level (settled_states (run evs s)).
Proof.
  revert s. induction evs as [| e evs IH]; intros s; cbn [run]; [constructor |].
  cbv zeta. unfold settled_states in *. rewrite settled_cons.
  destruct (publishes (step e s)) eqn:Hp; [| apply IH].
  cbn [map]. constructor; [| apply IH].
  apply (step_publishes_level _ _ Hp).
Qed.

Lemma run_fsm_changes_published (evs : list event) (s : Interrupt) :
  fsm_changes_published s (run evs s).
Proof.
  revert s. induction evs as [| e evs IH]; intros s; cbn [run]; [done |].
  cbv zeta. split; [| apply IH].
  destruct (publishes (step e s)) eqn:Hp; [done |].
  intros Hne. destruct Hne. by apply step_silent_fsm.
Qed.

(** The parity law from a start at [Undefined]: the pending count is
    the number [N] of settled events less the number consumed, the
    settled states are the negation of the first raw state processed,
    then its negation, and so on, and [fsm_state_] changes in no step
    that does not publish. *)
Lemma parity_from_undefined (s0 : Interrupt) (evs : list event) :
  FsmState s0 = Undefined ->
  active (change_state_timer_ s0) = false ->
  let tr := run evs s0 in
  let N := length (settled tr) in
  PendingInterrupts s0 + Z.of_nat N
    <= uxMaxCount (interrupt_counting_semaphore_ s0) ->
  PendingInterrupts (final s0 tr) = PendingInterrupts s0 + Z.of_nat N - consumed tr /\
  settled_states tr
  = match first_reading evs with
    | Some r => alternate (GpioState.operator_not r) N
    | None => []
    end /\
  Forall GpioState.is_level (settled_states tr) /\
  fsm_changes_published s0 tr.
Proof.
  intros Hu Ht tr N HN. split; [| split; [| split]].
  - by apply run_count.
  - by apply run_fresh.
  - apply run_settled_levels.
  - apply run_fsm_changes_published.
Qed.

(** What a constructed object does: it starts settled at [High], so the
    settled states are [Low], [High], [Low], ... whatever the first raw
    state processed. *)
Lemma parity_from_constructed (gpio_num rise fall : Z) (inverse_logic : bool)
    (evs : list event) :
  let s0 := init gpio_num rise fall inverse_logic in
  let tr := run evs s0 in
  let N := length (settled tr) in
  Z.of_nat N <= UBASETYPE_MAX ->
  FsmState s0 = High /\
  PendingInterrupts (final s0 tr) = Z.of_nat N - consumed tr /\
  settled_states tr = alternate Low N /\
  fsm_changes_published s0 tr.
Proof.
  intros s0 tr N HN. split; [reflexivity |]. split; [| split].
  - subst tr N. rewrite run_count; [by cbn | by cbn].
  - apply (run_alternates evs s0). by right.
  - apply run_fsm_changes_published.
Qed.

(** The scenario on the constructed object: one settled event, taken by
    the consumer. *)
Example bed_scenario_run :
  settled_states (run bed_scenario bed_interrupt) = [Low] /\
  consumed (run bed_scenario bed_interrupt) = 1 /\
  PendingInterrupts (final bed_interrupt (run bed_scenario bed_interrupt)) = 0.
Proof. repeat split. Qed.

(** C5.  A constructed object is not at [Undefined]: the member
    initialiser [fsm_state_{GpioState::Undefined}] goes through the
    converting constructor, which turns the enumerator -1 into [High].
    The first-reading branch of [ProcessInterrupt] is not taken: a first
    raw state [High] stops the timer and publishes nothing, and after a
    first raw state [Low] and the expiry of the timer the one settled
    state is [Low], the first raw state itself and not its negation. *)
Theorem constructed_object_starts_at_High :
  FsmState bed_interrupt = High /\
  GpioState.ctor (GpioState.Value_to_Z Undefined) false = High /\
  step (Process High) bed_interrupt
  = mkObs (set_change_state_timer_ (mkTimer false portMAX_DELAY) bed_interrupt)
      [TimerStop] false /\
  first_reading [Process Low; TimerExpiry] = Some Low /\
  settled_states (run [Process Low; TimerExpiry] bed_interrupt) = [Low] /\
  GpioState.operator_not Low = High /\
  PendingInterrupts (final bed_interrupt (run [Process Low; TimerExpiry] bed_interrupt)) = 1.
Proof. repeat split. Qed.

End LifeFacts.

(** ** The registry *)

Section RegistryFacts.

Lemma FindFreeId_loop_least (used i : Z) (n : nat) :
  0 <= i ->
  i + Z.of_nat n = MAX_INTERRUPTS ->
  let r := FindFreeId_loop used i n in
  i <= r <= MAX_INTERRUPTS /\
  (forall j, i <= j < r -> Z.testbit used j = true) /\
  (r < MAX_INTERRUPTS -> Z.testbit used r = false).
Proof.
  revert i. induction n as [| n IH]; intros i Hi Hn; cbn [FindFreeId_loop].
  - cbv zeta. split; [lia |]. split; [lia |]. lia.
  - unfold bitset.test. destruct (Z.testbit used i) eqn:Hb; cbn [negb].
    + destruct (IH (i + 1)) as (Hr & Hlow & Hfree); [lia | lia |].
      split; [lia |]. split; [| exact Hfree].
      intros j Hj. destruct (Z.eq_dec j i) as [-> | ?]; [exact Hb |].
      apply Hlow. lia.
    + split; [lia |]. split; [lia | done].
Qed.

Lemma bitset_set_testbit (b pos b' j : Z) :
  0 <= pos -> 0 <= j ->
  bitset.set b pos = Done b' ->
  pos < MAX_INTERRUPTS /\
  Z.testbit b' j = Z.testbit b j || (j =? pos).
Proof.
  intros Hp Hj. unfold bitset.set.
  destruct (pos <? MAX_INTERRUPTS) eqn:Hlt; [| discriminate].
  intros [= <-]. split; [by apply Z.ltb_lt |].
  rewrite Z.lor_spec, Z.shiftl_1_l, Z.pow2_bits_eqb by exact Hp.
  by rewrite (Z.eqb_sym pos j).
Qed.

Lemma mark_used_testbit (used : Z) (kvs : list (Z * Z)) (b j : Z) :
  Forall (fun kv => 0 <= snd kv) kvs -> 0 <= j ->
  mark_used used kvs = Done b ->
  Forall (fun kv => snd kv < MAX_INTERRUPTS) kvs /\
  (Z.testbit b j = true <-> Z.testbit used j = true \/ j ∈ kvs.*2).
Proof.
  intros Hpos Hj. revert b.
  induction Hpos as [| kv kvs Hkv Hpos IH]; intros b; cbn [mark_used foldr].
  - intros [= <-]. split; [constructor |]. split; [by left |].
    intros [? | Hin]; [done |]. by apply elem_of_nil in Hin.
  - fold (mark_used used kvs). destruct (mark_used used kvs) as [b0 | |] eqn:Hm;
      cbn [mbind outcome_bind]; try discriminate.
    intros Hset. destruct (IH b0 eq_refl) as [Hall Hbits].
    destruct (bitset_set_testbit _ _ _ j Hkv Hj Hset) as [Hlt Hb].
    split; [by constructor |].
    rewrite Hb, orb_true_iff, Hbits, Z.eqb_eq, fmap_cons, elem_of_cons.
    tauto.
Qed.

(** [FindFreeId] marks every id held in [gpio_to_id_map] and returns the
    least id that is neither marked before nor held in the map, or
    [MAX_INTERRUPTS] when the ids 0 to 31 are all marked. *)
Lemma FindFreeId_least_unused (w w' : World) (id : Z) :
  map_Forall (fun _ v => 0 <= v) (gpio_to_id_map w) ->
  FindFreeId w = Done (id, w') ->
  let used j := Z.testbit (used_ids w) j = true \/
                exists gpio, gpio_to_id_map w !! gpio = Some j in
  0 <= id <= MAX_INTERRUPTS /\
  (forall j, 0 <= j < id -> used j) /\
  (id < MAX_INTERRUPTS -> ~ used id) /\
  (forall j, 0 <= j -> Z.testbit (used_ids w') j = true <-> used j).
Proof.
  intros Hpos. unfold FindFreeId.
  destruct (mark_used (used_ids w) (map_to_list (gpio_to_id_map w)))
    as [b | |] eqn:Hm; cbn [mbind outcome_bind]; try discriminate.
  intros Heq. cbv zeta.
  assert (Hid : id = FindFreeId_loop b 0 (Z.to_nat MAX_INTERRUPTS)) by congruence.
  assert (Hw : w' = set_used_ids b w) by congruence.
  clear Heq. subst id w'.
  assert (Hl : Forall (fun kv : Z * Z => 0 <= snd kv) (map_to_list (gpio_to_id_map w))).
  { apply Forall_forall. intros [k v] Hin%elem_of_map_to_list. exact (Hpos k v Hin). }
  assert (Hbits : forall j, 0 <= j ->
            Z.testbit b j = true <->
            Z.testbit (used_ids w) j = true \/
            exists gpio, gpio_to_id_map w !! gpio = Some j).
  { intros j Hj. destruct (mark_used_testbit _ _ _ j Hl Hj Hm) as [_ ->].
    apply or_iff_compat_l. rewrite list_elem_of_fmap. split.
    - intros ([k v] & -> & Hin%elem_of_map_to_list). by exists k.
    - intros [k Hk]. exists (k, j). split; [done |]. by apply elem_of_map_to_list. }
  destruct (FindFreeId_loop_least b 0 (Z.to_nat MAX_INTERRUPTS))
    as (Hr & Hlow & Hfree); [lia | done |].
  split; [exact Hr |]. split; [| split].
  - intros j Hj. apply Hbits; [apply Hj |]. by apply Hlow.
  - intros Hlt Hu. apply Hbits in Hu; [| apply Hr]. pose proof (Hfree Hlt) as Hf. congruence.
  - intros j Hj. cbn. by apply Hbits.
Qed.

(** The bit of an id is set in [used_ids] one registration late: by the
    [FindFreeId] of the next registration.  After the first registration
    no bit is set, so the second one creates a second daemon task. *)
Lemma second_registration_creates_second_task :
  used_ids one_source = 0 /\
  length (tasks one_source) = 1%nat /\
  length (tasks two_sources) = 2%nat /\
  interrupt_daemon_task_handle two_sources = Some 1%nat.
Proof. by vm_compute. Qed.

(** C6.  With the 32 ids 0 to 31 all held by registered objects, one
    more registration does not stop at [assert(!used_ids.all())]: at that
    point bit 31 is not yet set.  With every creation and driver call
    succeeding the constructor returns, and the new object holds the id
    32, which is [MAX_INTERRUPTS].  The registration after that aborts,
    whatever the platform answers. *)
Theorem thirty_third_registration_returns :
  construct_many 32 power_on = Done full_house /\
  (fun id => id_to_interrupt_map full_house !! id) <$> seqZ 0 32
  = Some <$> seq 1 32 /\
  used_ids full_house = 2 ^ 31 - 1 /\
  exists w,
    Interrupt_ctor all_well 33%nat 32 0 0 false full_house = Done w /\
    gpio_to_id_map w !! 32 = Some MAX_INTERRUPTS /\
    id_to_interrupt_map w !! MAX_INTERRUPTS = Some 33%nat /\
    used_ids w = 2 ^ 32 - 1 /\
    forall a, Interrupt_ctor a 34%nat 33 0 0 false w = Aborted.
Proof.
  split; [by vm_compute |]. split; [by vm_compute |]. split; [by vm_compute |].
  eexists. split; [by vm_compute |].
  split; [by vm_compute |]. split; [by vm_compute |]. split; [by vm_compute |].
  intros [[] [] m r t g i h]; by vm_compute.
Qed.

(** C7.  Unregistration never returns: [FreeIdUnmapAndDeleteDaemonTask]
    stops at [assert(false)] under the mutex, before any map or bit is
    touched, so destroying the one registered object aborts. *)
Theorem unregistration_aborts :
  (forall this w,
     FreeIdUnmapAndDeleteDaemonTask this w = Aborted \/
     FreeIdUnmapAndDeleteDaemonTask this w = Blocked) /\
  Interrupt_ctor all_well bed 3 20 20 true power_on = Done one_source /\
  gpio_to_id_map one_source !! 3 = Some 0 /\
  id_to_interrupt_map one_source !! 0 = Some bed /\
  FreeIdUnmapAndDeleteDaemonTask bed one_source = Aborted /\
  Interrupt_dtor bed one_source = Aborted.
Proof.
  split.
  - intros this w. unfold FreeIdUnmapAndDeleteDaemonTask.
    destruct (take_global_vars_mutex w); cbn; auto.
  - by vm_compute.
Qed.

End RegistryFacts.

(** ** The debounce entry point *)

Section DebouncerFacts.

Lemma Debouncer_same_as_previous (this : ptr) (new_state : GpioState) (w : World) :
  previous_state w = new_state -> Debouncer this new_state w = Done w.
Proof. intros <-. unfold Debouncer. by rewrite GpioState_eqb_refl. Qed.

Lemma Debouncer_differs (this : ptr) (new_state : GpioState) (w : World)
    (obj : Interrupt) :
  previous_state w <> new_state ->
  objects w !! this = Some obj ->
  Debouncer this new_state w
  = Done (set_objects
            (<[this := fst (Interrupt.ProcessInterrupt new_state obj)]> (objects w))
            (set_previous_state new_state w)).
Proof.
  intros Hne Hobj. unfold Debouncer.
  rewrite (proj2 (GpioState_eqb_neq _ _) Hne). cbn [negb].
  cbn [objects set_previous_state]. by rewrite Hobj.
Qed.

(** One [previous_state] serves all objects: once any object was
    processed with a raw state, the next call with the same raw state is
    skipped for every object. *)
Lemma Debouncer_skips_other_object (a b : ptr) (new_state : GpioState)
    (w : World) (obj : Interrupt) :
  previous_state w <> new_state ->
  objects w !! a = Some obj ->
  exists w1, Debouncer a new_state w = Done w1 /\
             Debouncer b new_state w1 = Done w1.
Proof.
  intros Hne Hobj. eexists. split; [by apply Debouncer_differs |].
  by apply Debouncer_same_as_previous.
Qed.

(** C1.  [previous_state] is a function-local static, one for all
    objects.  The PIR object is processed with [Low], which arms its
    timer; the call for the bed object with [Low] that follows is
    skipped, although no raw state was ever reported for the bed object:
    it stays as constructed. *)
Theorem Debouncer_previous_state_shared :
  exists w1,
    Debouncer pir Low two_sources = Done w1 /\
    previous_state two_sources = Undefined /\
    previous_state w1 = Low /\
    Interrupt.change_state_timer_ <$> objects w1 !! pir = Some (mkTimer true 5000) /\
    objects two_sources !! bed = Some (Interrupt.init 3 20 20 true) /\
    Debouncer bed Low w1 = Done w1 /\
    objects w1 !! bed = Some (Interrupt.init 3 20 20 true).
Proof. eexists. split; [by vm_compute |]. by vm_compute. Qed.

End DebouncerFacts.

(** ** From the interrupt handler to the daemon task *)

Section HandoffFacts.

Local Ltac world_simpl :=
  cbn [objects gpio_to_id_map id_to_interrupt_map used_ids global_vars_mutex
       interrupt_daemon_task_handle previous_state tasks
       set_objects set_gpio_to_id_map set_id_to_interrupt_map set_used_ids
       set_global_vars_mutex set_interrupt_daemon_task_handle
       set_previous_state set_tasks set_task interrupt_initialized
       set_interrupt_initialized] in *.

Lemma find_from_le (b i id : Z) (n : nat) :
  Z.testbit b id = true ->
  i <= id < i + Z.of_nat n ->
  i <= bitset.find_from b i n <= id.
Proof.
  intros Hb. revert i. induction n as [| n IH]; intros i Hi; [lia |].
  cbn [bitset.find_from]. destruct (Z.testbit b i) eqn:Hbi; [lia |].
  assert (i <> id) by congruence.
  specialize (IH (i + 1)). lia.
Qed.

Lemma _Find_first_le (b id : Z) :
  0 <= id < MAX_INTERRUPTS -> Z.testbit b id = true ->
  bitset._Find_first b <= id.
Proof.
  intros Hid Hb. unfold bitset._Find_first.
  apply (find_from_le b 0 id _ Hb). unfold MAX_INTERRUPTS in *. lia.
Qed.

Lemma _Find_next_le (b prev id : Z) :
  prev < id < MAX_INTERRUPTS -> Z.testbit b id = true ->
  bitset._Find_next b prev <= id.
Proof.
  intros Hid Hb. unfold bitset._Find_next.
  apply (find_from_le b (prev + 1) id _ Hb). lia.
Qed.

Lemma CreateBitMaskAt_testbit (id : Z) :
  0 <= id < MAX_INTERRUPTS -> CreateBitMaskAt id = Z.shiftl 1 id.
Proof.
  intros Hid. unfold CreateBitMaskAt.
  change UINT32_MAX with (Z.ones 32).
  rewrite Z.land_ones, Z.shiftl_1_l by lia.
  apply Z.mod_small. unfold MAX_INTERRUPTS in Hid. split.
  - apply Z.pow_nonneg. lia.
  - apply Z.pow_lt_mono_r; lia.
Qed.

Lemma take_global_vars_mutex_tasks (w w1 : World) :
  take_global_vars_mutex w = Done w1 ->
  tasks w1 = tasks w /\ objects w1 = objects w /\
  id_to_interrupt_map w1 = id_to_interrupt_map w.
Proof.
  unfold take_global_vars_mutex. destruct (global_vars_mutex w); [| done].
  destruct (fst _); [| done]. by intros [= <-].
Qed.

Lemma give_global_vars_mutex_tasks (w w1 : World) :
  give_global_vars_mutex w = Done w1 ->
  tasks w1 = tasks w /\ objects w1 = objects w.
Proof.
  unfold give_global_vars_mutex. destruct (global_vars_mutex w); [| done].
  by intros [= <-].
Qed.

Lemma Debouncer_tasks (this : ptr) (new_state : GpioState) (w w1 : World) :
  Debouncer this new_state w = Done w1 -> tasks w1 = tasks w.
Proof.
  unfold Debouncer. destruct (negb _); [| by intros [= <-]].
  cbn [objects set_previous_state]. destruct (objects w !! this); [| done].
  by intros [= <-].
Qed.

(** The handler changes no task but in its notification word, and there
    it only adds bits. *)
Lemma InterruptHandler_keeps_bits (arg : ptr) (level : Z) (w w' : World)
    (h : nat) (t : Task) :
  InterruptHandler arg level w = Done w' ->
  tasks w !! h = Some t ->
  exists t', tasks w' !! h = Some t' /\ pc t' = pc t /\
    forall j, Z.testbit (ulNotifiedValue t) j = true ->
              Z.testbit (ulNotifiedValue t') j = true.
Proof.
  unfold InterruptHandler. destruct (objects w !! arg) as [obj |]; [| done].
  destruct (global_vars_mutex w) as [q |]; [| done].
  destruct (fst (xSemaphoreTake q)).
  2:{ intros [= <-] Ht. by exists t. }
  unfold xTaskNotifyFromISR. cbn [interrupt_daemon_task_handle set_objects
    set_global_vars_mutex set_gpio_to_id_map tasks].
  destruct (interrupt_daemon_task_handle w) as [h0 |]; [| done].
  cbn [mbind outcome_bind give_global_vars_mutex]. world_simpl.
  intros [= <-] Ht. world_simpl.
  destruct (decide (h0 = h)) as [-> | Hne].
  - rewrite list_lookup_alter_eq, Ht. cbn. eexists. split; [done |].
    split; [done |]. intros j Hj. cbn. by rewrite Z.lor_spec, Hj.
  - rewrite list_lookup_alter_ne by done. exists t. by rewrite Ht.
Qed.

(** The handler writes no object: the assignment to [RawState()] stores
    into a temporary. *)
Lemma InterruptHandler_keeps_objects (arg : ptr) (level : Z) (w w' : World) :
  InterruptHandler arg level w = Done w' -> objects w' = objects w.
Proof.
  unfold InterruptHandler. destruct (objects w !! arg) as [obj |]; [| done].
  destruct (global_vars_mutex w) as [q |]; [| done].
  destruct (fst (xSemaphoreTake q)); [| by intros [= <-]].
  unfold xTaskNotifyFromISR. cbn [interrupt_daemon_task_handle
    set_global_vars_mutex set_gpio_to_id_map].
  destruct (interrupt_daemon_task_handle w) as [h0 |]; [| done].
  cbn [mbind outcome_bind give_global_vars_mutex]. world_simpl.
  by intros [= <-].
Qed.

Lemma InterruptHandler_mutex_free (arg : ptr) (level : Z) (w w' : World)
    (obj : Interrupt) (h : nat) (t : Task) (id : Z) :
  0 <= id < MAX_INTERRUPTS ->
  InterruptHandler arg level w = Done w' ->
  objects w !! arg = Some obj ->
  mutex_free w ->
  gpio_to_id_map w !! Interrupt.GpioNum obj = Some id ->
  interrupt_daemon_task_handle w = Some h ->
  tasks w !! h = Some t ->
  objects w' = objects w /\
  tasks w' !! h
  = Some (mkTask (pc t) (Z.lor (ulNotifiedValue t) (Z.shiftl 1 id))).
Proof.
  intros Hid Hrun Hobj (q & Hq & Hfree) Hmap Hh Ht.
  split; [by eapply InterruptHandler_keeps_objects |]. revert Hrun.
  unfold InterruptHandler. rewrite Hobj, Hq.
  unfold xSemaphoreTake. rewrite (proj2 (Z.ltb_lt _ _) Hfree). cbn [fst snd].
  unfold xTaskNotifyFromISR, Interrupt.assign_RawState.
  cbn [interrupt_daemon_task_handle
    set_global_vars_mutex set_gpio_to_id_map tasks gpio_to_id_map fst snd].
  rewrite Hmap, Hh. cbn [mbind outcome_bind give_global_vars_mutex default].
  world_simpl. intros [= <-]. world_simpl.
  rewrite list_lookup_alter_eq, Ht.
  by rewrite CreateBitMaskAt_testbit.
Qed.

(** A handler that finds the mutex taken returns with the world as it
    found it. *)
Lemma InterruptHandler_mutex_taken (arg : ptr) (level : Z) (w : World) :
  is_Some (objects w !! arg) ->
  mutex_taken w ->
  InterruptHandler arg level w = Done w.
Proof.
  intros [obj Hobj] (q & Hq & Hzero).
  unfold InterruptHandler. rewrite Hobj, Hq.
  unfold xSemaphoreTake. rewrite Hzero. done.
Qed.

Lemma shiftl_1_testbit (id : Z) : 0 <= id -> Z.testbit (Z.shiftl 1 id) id = true.
Proof.
  intros Hid. rewrite Z.shiftl_1_l, Z.pow2_bits_eqb by done. apply Z.eqb_refl.
Qed.

Lemma set_task_lookup (h : nat) (t t0 : Task) (w w1 : World) :
  tasks w1 = tasks w -> tasks w !! h = Some t0 ->
  tasks (set_task h t w1) !! h = Some t.
Proof.
  intros Heq Ht. world_simpl. rewrite Heq.
  apply list_lookup_insert_eq. by eapply lookup_lt_Some.
Qed.

Lemma set_task_lookup_ne (h0 h : nat) (t : Task) (w w1 : World) :
  tasks w1 = tasks w -> h0 <> h ->
  tasks (set_task h0 t w1) !! h = tasks w !! h.
Proof.
  intros Heq Hne. world_simpl. rewrite Heq. by apply list_lookup_insert_ne.
Qed.

(** A step of another daemon task leaves the task [h] as it is. *)
Lemma DaemonTask_other (h0 h : nat) (w w' : World) :
  h0 <> h -> DaemonTask h0 w = Done w' -> tasks w' !! h = tasks w !! h.
Proof.
  intros Hne. unfold DaemonTask.
  destruct (tasks w !! h0) as [t |]; [| done].
  destruct (pc t) as [| nv i | nv i | nv i p |]; try done.
  - destruct (_ =? 0); [done |]. intros [= <-]. by apply set_task_lookup_ne.
  - destruct (i <? MAX_INTERRUPTS).
    + destruct (take_global_vars_mutex w) as [w1 | |] eqn:Hm; try done.
      cbn [mbind outcome_bind]. intros [= <-].
      apply set_task_lookup_ne; [| done]. by apply take_global_vars_mutex_tasks.
    + intros [= <-]. by apply set_task_lookup_ne.
  - destruct (id_to_interrupt_map w !! i); [| done].
    destruct (give_global_vars_mutex w) as [w1 | |] eqn:Hm; try done.
    cbn [mbind outcome_bind]. intros [= <-].
    apply set_task_lookup_ne; [| done]. by apply give_global_vars_mutex_tasks.
  - destruct (objects w !! p) as [obj |]; [| done].
    destruct (Debouncer p (Interrupt.RawState obj) w) as [w1 | |] eqn:Hd; try done.
    cbn [mbind outcome_bind]. intros [= <-].
    apply set_task_lookup_ne; [| done]. by eapply Debouncer_tasks.
Qed.

(** On wake the task takes the whole word and leaves zero behind. *)
Lemma DaemonTask_wake (h : nat) (w w' : World) (t : Task) :
  DaemonTask h w = Done w' ->
  tasks w !! h = Some t -> pc t = Waiting ->
  w' = set_task h
         (mkTask (LoopHead (ulNotifiedValue t)
                    (bitset._Find_first (ulNotifiedValue t))) 0) w.
Proof.
  unfold DaemonTask. intros Hrun Ht Hpc. rewrite Ht, Hpc in Hrun.
  destruct (_ =? 0); [done |]. by injection Hrun as <-.
Qed.

(** Under the mutex the task reads the object of the id from
    [id_to_interrupt_map]. *)
Lemma DaemonTask_lookup (h : nat) (w w' : World) (t : Task) (nv i : Z) :
  DaemonTask h w = Done w' ->
  tasks w !! h = Some t -> pc t = HoldsMutex nv i ->
  exists p, id_to_interrupt_map w !! i = Some p /\
            tasks w' !! h = Some (mkTask (Calls nv i p) (ulNotifiedValue t)).
Proof.
  unfold DaemonTask. intros Hrun Ht Hpc. rewrite Ht, Hpc in Hrun.
  destruct (id_to_interrupt_map w !! i) as [p |]; [| done].
  destruct (give_global_vars_mutex w) as [w1 | |] eqn:Hm; try done.
  cbn [mbind outcome_bind] in Hrun. injection Hrun as <-.
  exists p. split; [done |]. eapply set_task_lookup; [| exact Ht].
  by apply give_global_vars_mutex_tasks.
Qed.

(** A pending slot stays pending through every step of its daemon task
    but the call of [Debouncer] for that slot. *)
Lemma DaemonTask_keeps_pending (h : nat) (id : Z) (w w' : World) :
  0 <= id < MAX_INTERRUPTS ->
  DaemonTask h w = Done w' ->
  pending h id w ->
  pending h id w' \/
  exists t notify_value interrupt_ptr obj w1,
    tasks w !! h = Some t /\
    pc t = Calls notify_value id interrupt_ptr /\
    objects w !! interrupt_ptr = Some obj /\
    Debouncer interrupt_ptr (Interrupt.RawState obj) w = Done w1 /\
    w' = set_task h
           (mkTask (LoopHead notify_value (bitset._Find_next notify_value id))
              (ulNotifiedValue t)) w1.
Proof.
  intros Hid Hrun (t & Ht & Hp). revert Hrun. unfold DaemonTask. rewrite Ht.
  destruct (pc t) as [| nv i | nv i | nv i p |] eqn:Hpc; try done.
  - destruct Hp as [Hp | []]. destruct (_ =? 0); [done |]. intros [= <-].
    left. eexists. split; [by eapply set_task_lookup |]. right. cbn [pc].
    split; [by apply _Find_first_le | done].
  - destruct (i <? MAX_INTERRUPTS) eqn:Hi.
    + destruct (take_global_vars_mutex w) as [w1 | |] eqn:Hm; try done.
      cbn [mbind outcome_bind]. intros [= <-]. left. eexists. split.
      * eapply set_task_lookup; [| exact Ht]. by apply take_global_vars_mutex_tasks.
      * done.
    + intros [= <-]. left. eexists. split; [by eapply set_task_lookup |].
      cbn [pc ulNotifiedValue]. destruct Hp as [Hp | [Hle _]]; [by left |].
      apply Z.ltb_ge in Hi. lia.
  - destruct (id_to_interrupt_map w !! i); [| done].
    destruct (give_global_vars_mutex w) as [w1 | |] eqn:Hm; try done.
    cbn [mbind outcome_bind]. intros [= <-]. left. eexists. split.
    + eapply set_task_lookup; [| exact Ht]. by apply give_global_vars_mutex_tasks.
    + done.
  - destruct (objects w !! p) as [obj |] eqn:Hobj; [| done].
    destruct (Debouncer p (Interrupt.RawState obj) w) as [w1 | |] eqn:Hd; try done.
    cbn [mbind outcome_bind]. intros [= <-].
    destruct Hp as [Hp | [Hle Hb]].
    + left. eexists. split.
      * eapply set_task_lookup; [| exact Ht]. by eapply Debouncer_tasks.
      * by left.
    + destruct (Z.eq_dec i id) as [-> | Hne].
      * right. by exists t, nv, p, obj, w1.
      * left. eexists. split.
        -- eapply set_task_lookup; [| exact Ht]. by eapply Debouncer_tasks.
        -- right. cbn [pc]. split; [| done]. apply _Find_next_le; [lia | done].
Qed.

(** X27.  What the hand-off keeps.  For any step [a] of the two contexts
    from [w] to [w'], any daemon task [h] and any slot [id]:
    - an interrupt handler that finds the registry mutex free ORs the
      bit of its slot into the notification word, which makes the slot
      pending, and writes no object;
    - on wake the daemon task takes the whole word and leaves zero;
    - under the mutex it reads the object of the slot it scans;
    - and a pending slot stays pending, whatever the step, until the
      daemon task calls [Debouncer] for the slot with the raw state the
      object holds at that moment. *)
Theorem pending_kept_until_dispatch (a : action) (w w' : World) (h : nat) (id : Z) :
  0 <= id < MAX_INTERRUPTS ->
  act a w = Done w' ->
  (forall arg level obj t,
     a = Edge arg level ->
     objects w !! arg = Some obj ->
     mutex_free w ->
     gpio_to_id_map w !! Interrupt.GpioNum obj = Some id ->
     interrupt_daemon_task_handle w = Some h ->
     tasks w !! h = Some t ->
     objects w' = objects w /\
     tasks w' !! h
     = Some (mkTask (pc t) (Z.lor (ulNotifiedValue t) (Z.shiftl 1 id))) /\
     pending h id w') /\
  (forall t,
     a = Daemon h -> tasks w !! h = Some t -> pc t = Waiting ->
     w' = set_task h
            (mkTask (LoopHead (ulNotifiedValue t)
                       (bitset._Find_first (ulNotifiedValue t))) 0) w) /\
  (forall t notify_value i,
     a = Daemon h -> tasks w !! h = Some t -> pc t = HoldsMutex notify_value i ->
     exists p, id_to_interrupt_map w !! i = Some p /\
       tasks w' !! h = Some (mkTask (Calls notify_value i p) (ulNotifiedValue t))) /\
  (pending h id w ->
   pending h id w' \/
   exists t notify_value interrupt_ptr obj w1,
     a = Daemon h /\
     tasks w !! h = Some t /\
     pc t = Calls notify_value id interrupt_ptr /\
     objects w !! interrupt_ptr = Some obj /\
     Debouncer interrupt_ptr (Interrupt.RawState obj) w = Done w1 /\
     w' = set_task h
            (mkTask (LoopHead notify_value (bitset._Find_next notify_value id))
               (ulNotifiedValue t)) w1).
Proof.
  intros Hid Hrun. split; [| split; [| split]].
  - intros arg level obj t -> Hobj Hfree Hmap Hh Ht. cbn [act] in Hrun.
    destruct (InterruptHandler_mutex_free _ _ _ _ _ _ _ _ Hid Hrun Hobj Hfree Hmap Hh Ht)
      as [Ho Hw].
    split; [exact Ho |]. split; [exact Hw |].
    eexists. split; [exact Hw |]. left. cbn [ulNotifiedValue].
    rewrite Z.lor_spec, shiftl_1_testbit by lia. apply orb_true_r.
  - intros t -> Ht Hpc. by eapply DaemonTask_wake.
  - intros t nv i -> Ht Hpc. by eapply DaemonTask_lookup.
  - intros Hp. destruct a as [arg level | h0]; cbn [act] in Hrun.
    + left. destruct Hp as (t & Ht & Hp).
      destruct (InterruptHandler_keeps_bits _ _ _ _ _ _ Hrun Ht) as (t' & Ht' & Hpc & Hb).
      exists t'. split; [exact Ht' |]. rewrite Hpc.
      destruct Hp as [Hp | Hp]; [left; by apply Hb | by right].
    + destruct (decide (h0 = h)) as [-> | Hne].
      * destruct (DaemonTask_keeps_pending _ _ _ _ Hid Hrun Hp)
          as [Hk | (t & nv & p & obj & w1 & H1 & H2 & H3 & H4 & H5)]; [by left |].
        right. by exists t, nv, p, obj, w1.
      * left. destruct Hp as (t & Ht & Hp). exists t. split; [| exact Hp].
        by rewrite (DaemonTask_other _ _ _ _ Hne Hrun).
Qed.

Lemma pending_kept_until_dispatch_witness :
  0 <= 1 < MAX_INTERRUPTS /\
  act (Edge bed 0) two_sources = Done bed_edge /\
  pending 1 1 bed_edge.
Proof.
  assert (Hid : 0 <= 1 < MAX_INTERRUPTS) by (split; [discriminate | reflexivity]).
  assert (Hrun : act (Edge bed 0) two_sources = Done bed_edge)
    by (vm_compute; reflexivity).
  split; [exact Hid |]. split; [exact Hrun |].
  destruct (pending_kept_until_dispatch _ _ _ 1%nat 1 Hid Hrun) as [Hedge _].
  apply (Hedge bed 0 (Interrupt.init 3 20 20 true) (mkTask Waiting 0)).
  - reflexivity.
  - vm_compute; reflexivity.
  - exists xSemaphoreCreateMutex. split; vm_compute; reflexivity.
  - vm_compute; reflexivity.
  - vm_compute; reflexivity.
  - vm_compute; reflexivity.
Defined.

(** The scenario of the lost edge.  The PIR line rose and the daemon
    task, woken, holds the registry mutex to look the PIR object up.
    The bed line falls there.  Afterwards the notification word is
    zero, slot 1 is not pending, the daemon task finishes its round and
    blocks, and the bed object is as constructed: it was never handed to
    the state machine. *)
Example bed_edge_under_mutex :
  acts [Edge pir 1; Daemon 1%nat; Daemon 1%nat] two_sources = Done daemon_in_mutex /\
  pc <$> tasks daemon_in_mutex !! 1%nat = Some (HoldsMutex 1 0) /\
  interrupt_daemon_task_handle daemon_in_mutex = Some 1%nat /\
  gpio_to_id_map daemon_in_mutex !! 3 = Some 1 /\
  ulNotifiedValue <$> tasks daemon_in_mutex !! 1%nat = Some 0 /\
  ~ pending 1 1 daemon_in_mutex /\
  acts [Edge bed 0; Daemon 1%nat; Daemon 1%nat; Daemon 1%nat] daemon_in_mutex
  = Done after_bed_edge /\
  DaemonTask 1 after_bed_edge = Blocked /\
  objects after_bed_edge !! bed = Some (Interrupt.init 3 20 20 true).
Proof.
  repeat (split; [by vm_compute |]).
  split.
  - intros (t & Ht & Hp). vm_compute in Ht. injection Ht as <-.
    cbn [pc ulNotifiedValue] in Hp. destruct Hp as [Hp | [_ Hp]]; discriminate.
  - repeat (split; [by vm_compute |]). by vm_compute.
Qed.

(** A handler that finds the mutex free, the daemon task handle set,
    returns. *)
Lemma InterruptHandler_returns (arg : ptr) (level : Z) (w : World) (h : nat) :
  is_Some (objects w !! arg) ->
  mutex_free w ->
  interrupt_daemon_task_handle w = Some h ->
  exists w', InterruptHandler arg level w = Done w'.
Proof.
  intros [obj Hobj] (q & Hq & Hfree) Hh.
  unfold InterruptHandler. rewrite Hobj, Hq.
  unfold xSemaphoreTake. rewrite (proj2 (Z.ltb_lt _ _) Hfree). cbn [fst snd].
  unfold xTaskNotifyFromISR. world_simpl. rewrite Hh.
  cbn [mbind outcome_bind give_global_vars_mutex]. world_simpl.
  by eexists.
Qed.

(** C9.  An edge that arrives while the registry mutex is taken is
    lost.  [InterruptHandler] notifies the daemon task only inside
    [if (xSemaphoreTakeFromISR(global_vars_mutex, ...))], and its
    assignment to [RawState()] stores into a temporary.  For every
    registered object, every level read and every world in which the
    daemon task exists:
    - a handler that finds the mutex free returns and has ORed the bit
      of its slot into the notification word;
    - a handler that finds the mutex taken returns with the world as it
      found it: no bit is ORed into a notification word and no level is
      kept, and whatever the two contexts do next is what they would
      have done without the edge. *)
Theorem edge_under_mutex_is_lost (arg : ptr) (raw_gpio_level : Z) (w : World)
    (obj : Interrupt) (id : Z) (h : nat) (t : Task) :
  objects w !! arg = Some obj ->
  gpio_to_id_map w !! Interrupt.GpioNum obj = Some id ->
  0 <= id < MAX_INTERRUPTS ->
  interrupt_daemon_task_handle w = Some h ->
  tasks w !! h = Some t ->
  (mutex_free w ->
   exists w',
     InterruptHandler arg raw_gpio_level w = Done w' /\
     tasks w' !! h
     = Some (mkTask (pc t) (Z.lor (ulNotifiedValue t) (Z.shiftl 1 id)))) /\
  (mutex_taken w ->
   InterruptHandler arg raw_gpio_level w = Done w /\
   forall l, acts (Edge arg raw_gpio_level :: l) w = acts l w).
Proof.
  intros Hobj Hmap Hid Hh Ht.
  assert (Hsome : is_Some (objects w !! arg)) by (by exists obj).
  split.
  - intros Hfree.
    destruct (InterruptHandler_returns arg raw_gpio_level w h Hsome Hfree Hh)
      as [w' Hrun].
    exists w'. split; [exact Hrun |].
    by destruct (InterruptHandler_mutex_free _ _ _ _ _ _ _ _
                   Hid Hrun Hobj Hfree Hmap Hh Ht).
  - intros Htaken.
    pose proof (InterruptHandler_mutex_taken arg raw_gpio_level w Hsome Htaken)
      as Hrun.
    split; [exact Hrun |].
    intros l. cbn [acts act]. by rewrite Hrun.
Qed.

Lemma edge_under_mutex_is_lost_witness :
  objects daemon_in_mutex !! bed = Some (Interrupt.init 3 20 20 true) /\
  gpio_to_id_map daemon_in_mutex !! 3 = Some 1 /\
  interrupt_daemon_task_handle daemon_in_mutex = Some 1%nat /\
  tasks daemon_in_mutex !! 1%nat = Some (mkTask (HoldsMutex 1 0) 0) /\
  mutex_taken daemon_in_mutex /\
  InterruptHandler bed 0 daemon_in_mutex = Done daemon_in_mutex /\
  acts [Edge bed 0; Daemon 1%nat; Daemon 1%nat; Daemon 1%nat] daemon_in_mutex
  = acts [Daemon 1%nat; Daemon 1%nat; Daemon 1%nat] daemon_in_mutex.
Proof.
  assert (Hobj : objects daemon_in_mutex !! bed = Some (Interrupt.init 3 20 20 true))
    by (vm_compute; reflexivity).
  assert (Hmap : gpio_to_id_map daemon_in_mutex
                   !! Interrupt.GpioNum (Interrupt.init 3 20 20 true) = Some 1)
    by (vm_compute; reflexivity).
  assert (Hid : 0 <= 1 < MAX_INTERRUPTS) by (split; [discriminate | reflexivity]).
  assert (Hh : interrupt_daemon_task_handle daemon_in_mutex = Some 1%nat)
    by (vm_compute; reflexivity).
  assert (Ht : tasks daemon_in_mutex !! 1%nat = Some (mkTask (HoldsMutex 1 0) 0))
    by (vm_compute; reflexivity).
  assert (Htaken : mutex_taken daemon_in_mutex)
    by (eexists; split; vm_compute; reflexivity).
  split; [exact Hobj |]. split; [exact Hmap |]. split; [exact Hh |].
  split; [exact Ht |]. split; [exact Htaken |].
  destruct (edge_under_mutex_is_lost bed 0 daemon_in_mutex _ _ _ _
              Hobj Hmap Hid Hh Ht) as [_ Hlost].
  destruct (Hlost Htaken) as [Hrun Hacts].
  split; [exact Hrun | apply Hacts].
Defined.

End HandoffFacts.

(** ** Further properties of [GpioState] *)

Section GpioStateMore.

Import GpioState.

(** X1.  [operator!] never returns [Undefined] and never returns its
    operand; applied twice it gives a level back and turns [Undefined]
    into [Low]. *)
Theorem operator_not_on_every_state (g : GpioState) :
  operator_not g <> Undefined /\
  operator_not g <> g /\
  operator_not (operator_not g)
  = match g with Undefined => Low | _ => g end.
Proof. by destruct g. Qed.

(** X2.  Converting an enumerator to a [GpioState] goes through [bool]:
    [Low] and [High] come out as they are, [Undefined] comes out as
    [High]; with [inverse_logic] the result is the opposite level. *)
Theorem ctor_of_enumerator (v : Value) :
  ctor (Value_to_Z v) false = match v with Undefined => High | _ => v end /\
  ctor (Value_to_Z v) true = match v with Low => High | _ => Low end.
Proof. by destruct v. Qed.

End GpioStateMore.

(** ** Further properties of one object *)

Section InterruptMore.

Import Interrupt Life.

Local Ltac split_ifs :=
  repeat match goal with
         | |- context [if ?b then _ else _] => destruct b eqn:?
         end.

Local Ltac fsm_crush :=
  unfold step, ProcessInterrupt, FsmTransition, FsmReset, TimerCallback,
    StateChanger, WaitForSingleInterrupt, assign_RawState,
    assign_GoHighTime, assign_GoLowTime,
    give_interrupt_counting_semaphore, xSemaphoreGive, xSemaphoreTake,
    xTimerChangePeriod, xTimerStop, PendingInterrupts, uxSemaphoreGetCount,
    FsmState, GoHighTime, GoLowTime, wait_time_for;
  split_ifs; cbn in *; intros; try done; try lia.

(** X3.  Whatever the raw state and the object, [ProcessInterrupt] makes
    exactly one FreeRTOS call and leaves the GPIO number, the logic
    flag, the raw state, the two delays, the maximum count of the
    counting semaphore and the timer-protection semaphore as they
    are. *)
Theorem ProcessInterrupt_frame (new_state : GpioState) (s : Interrupt) :
  let r := ProcessInterrupt new_state s in
  gpio_num_ (fst r) = gpio_num_ s /\
  inverse_logic_ (fst r) = inverse_logic_ s /\
  raw_state_ (fst r) = raw_state_ s /\
  low_to_high_time_ticks_ (fst r) = low_to_high_time_ticks_ s /\
  high_to_low_time_ticks_ (fst r) = high_to_low_time_ticks_ s /\
  protect_timer_semaphore_ (fst r) = protect_timer_semaphore_ s /\
  uxMaxCount (interrupt_counting_semaphore_ (fst r))
  = uxMaxCount (interrupt_counting_semaphore_ s) /\
  length (snd r) = 1%nat.
Proof. fsm_crush. Qed.

(** X4.  After [ProcessInterrupt], whatever the input, [fsm_state_] is
    [Low] or [High]; the pending count has not gone down and has grown
    by one at most; and either the call gave the counting semaphore or
    [fsm_state_] and the pending count are as before. *)
Theorem ProcessInterrupt_settles_at_level (new_state : GpioState) (s : Interrupt) :
  let r := ProcessInterrupt new_state s in
  GpioState.is_level (FsmState (fst r)) /\
  PendingInterrupts s <= PendingInterrupts (fst r) <= PendingInterrupts s + 1 /\
  (snd r = [SemaphoreGive] \/
   FsmState (fst r) = FsmState s /\
   PendingInterrupts (fst r) = PendingInterrupts s).
Proof.
  cbv zeta. destruct (fsm_state_ s) eqn:Hf, new_state.
  all: unfold ProcessInterrupt, FsmTransition, FsmReset, StateChanger,
         give_interrupt_counting_semaphore, xSemaphoreGive, PendingInterrupts,
         uxSemaphoreGetCount, FsmState, GpioState.is_level; rewrite ?Hf.
  all: cbn [GpioState.eqb GpioState.Value_to_Z Z.eqb negb Pos.eqb].
  all: split_ifs; cbn; rewrite ?Hf; intuition (try lia; try discriminate; auto).
Qed.

(** X5.  Two settled events cancel: from a level, [StateChanger] twice
    puts [fsm_state_] back and adds two to the pending count. *)
Theorem StateChanger_twice (s : Interrupt) :
  GpioState.is_level (FsmState s) ->
  PendingInterrupts s + 2 <= uxMaxCount (interrupt_counting_semaphore_ s) ->
  fst (StateChanger (fst (StateChanger s)))
  = set_interrupt_counting_semaphore_
      (mkSemaphore (PendingInterrupts s + 2)
         (uxMaxCount (interrupt_counting_semaphore_ s))) s.
Proof.
  intros Hl Hle. destruct s as [g i [c m] lo hi tm raw fsm prot].
  unfold FsmState, PendingInterrupts, uxSemaphoreGetCount in *. cbn in *.
  unfold StateChanger, give_interrupt_counting_semaphore, xSemaphoreGive,
    set_interrupt_counting_semaphore_, set_fsm_state_, FsmState. cbn.
  assert (H1 : (c <? m) = true) by (apply Z.ltb_lt; lia). rewrite H1. cbn.
  assert (H2 : (c + 1 <? m) = true) by (apply Z.ltb_lt; lia). rewrite H2. cbn.
  rewrite (operator_not_involutive _ Hl). do 2 f_equal. lia.
Qed.

Lemma StateChanger_twice_witness :
  GpioState.is_level (FsmState bed_interrupt) /\
  PendingInterrupts bed_interrupt + 2
    <= uxMaxCount (interrupt_counting_semaphore_ bed_interrupt) /\
  fst (StateChanger (fst (StateChanger bed_interrupt)))
  = set_interrupt_counting_semaphore_ (mkSemaphore 2 UBASETYPE_MAX) bed_interrupt.
Proof.
  assert (Hl : GpioState.is_level (FsmState bed_interrupt)) by (by right).
  assert (Hle : PendingInterrupts bed_interrupt + 2
                <= uxMaxCount (interrupt_counting_semaphore_ bed_interrupt))
    by discriminate.
  split; [exact Hl |]. split; [exact Hle |].
  exact (StateChanger_twice bed_interrupt Hl Hle).
Defined.

(** X6.  A bounce is filtered.  On an object settled at a level, a new
    level whose delay is not zero followed, before the timer expires, by
    the settled level again publishes no settled event: the object is as
    before, with the timer stopped. *)
Theorem bounce_is_filtered (s : Interrupt) (new_state : GpioState) :
  GpioState.is_level (FsmState s) ->
  GpioState.is_level new_state ->
  new_state <> FsmState s ->
  wait_time_for new_state s <> 0 ->
  let tr := run [Process new_state; Process (FsmState s)] s in
  settled tr = [] /\
  final s tr
  = set_change_state_timer_ (mkTimer false (wait_time_for new_state s)) s.
Proof.
  intros Hl Hn Hne Hw. destruct s as [g i sem lo hi tm raw fsm prot].
  unfold FsmState, wait_time_for, GoHighTime, GoLowTime in *. cbn in Hl, Hne, Hw.
  apply Z.eqb_neq in Hw.
  destruct Hl as [-> | ->], Hn as [-> | ->]; try done; cbn in Hw |- *.
  all: unfold settled, final, ProcessInterrupt, FsmTransition, FsmReset, FsmState,
         GoHighTime, GoLowTime; cbn; rewrite Hw; cbn; done.
Qed.

Lemma bounce_is_filtered_witness :
  GpioState.is_level (FsmState bed_interrupt) /\
  GpioState.is_level Low /\
  Low <> FsmState bed_interrupt /\
  wait_time_for Low bed_interrupt <> 0 /\
  settled (run [Process Low; Process High] bed_interrupt) = [].
Proof.
  assert (H1 : GpioState.is_level (FsmState bed_interrupt)) by (by right).
  assert (H2 : GpioState.is_level Low) by (by left).
  assert (H3 : Low <> FsmState bed_interrupt) by discriminate.
  assert (H4 : wait_time_for Low bed_interrupt <> 0) by discriminate.
  split; [exact H1 |]. split; [exact H2 |]. split; [exact H3 |]. split; [exact H4 |].
  exact (proj1 (bounce_is_filtered bed_interrupt Low H1 H2 H3 H4)).
Defined.

(** X7.  A level that holds settles once.  On an object settled at a
    level, a new level whose delay is not zero followed by the expiry of
    the timer publishes exactly one settled event: [fsm_state_] is the
    new level, the pending count is one more and the timer is
    dormant. *)
Theorem held_level_settles_once (s : Interrupt) (new_state : GpioState) :
  GpioState.is_level (FsmState s) ->
  GpioState.is_level new_state ->
  new_state <> FsmState s ->
  wait_time_for new_state s <> 0 ->
  PendingInterrupts s < uxMaxCount (interrupt_counting_semaphore_ s) ->
  let tr := run [Process new_state; TimerExpiry] s in
  settled_states tr = [new_state] /\
  final s tr
  = set_interrupt_counting_semaphore_
      (mkSemaphore (PendingInterrupts s + 1)
         (uxMaxCount (interrupt_counting_semaphore_ s)))
      (set_fsm_state_ new_state
         (set_change_state_timer_
            (mkTimer false (wait_time_for new_state s)) s)).
Proof.
  intros Hl Hn Hne Hw Hlt. destruct s as [g i [c m] lo hi tm raw fsm prot].
  unfold FsmState, wait_time_for, GoHighTime, GoLowTime, PendingInterrupts,
    uxSemaphoreGetCount in *. cbn in Hl, Hne, Hw, Hlt.
  apply Z.eqb_neq in Hw. apply Z.ltb_lt in Hlt.
  destruct Hl as [-> | ->], Hn as [-> | ->]; try done; cbn in Hw |- *.
  all: unfold settled_states, settled, final, ProcessInterrupt, FsmTransition,
         TimerCallback, StateChanger, give_interrupt_counting_semaphore,
         xSemaphoreGive, FsmState, LastState, GoHighTime, GoLowTime;
       cbn; rewrite Hw; cbn; rewrite Hlt; cbn; done.
Qed.

Lemma held_level_settles_once_witness :
  GpioState.is_level (FsmState bed_interrupt) /\
  GpioState.is_level Low /\
  Low <> FsmState bed_interrupt /\
  wait_time_for Low bed_interrupt <> 0 /\
  PendingInterrupts bed_interrupt
    < uxMaxCount (interrupt_counting_semaphore_ bed_interrupt) /\
  settled_states (run [Process Low; TimerExpiry] bed_interrupt) = [Low].
Proof.
  assert (H1 : GpioState.is_level (FsmState bed_interrupt)) by (by right).
  assert (H2 : GpioState.is_level Low) by (by left).
  assert (H3 : Low <> FsmState bed_interrupt) by discriminate.
  assert (H4 : wait_time_for Low bed_interrupt <> 0) by discriminate.
  assert (H5 : PendingInterrupts bed_interrupt
               < uxMaxCount (interrupt_counting_semaphore_ bed_interrupt))
    by reflexivity.
  split; [exact H1 |]. split; [exact H2 |]. split; [exact H3 |].
  split; [exact H4 |]. split; [exact H5 |].
  exact (proj1 (held_level_settles_once bed_interrupt Low H1 H2 H3 H4 H5)).
Defined.

Lemma step_stays_level (e : event) (s : Interrupt) :
  GpioState.is_level (FsmState s) ->
  GpioState.is_level (FsmState (after (step e s))).
Proof.
  intros Hl. destruct (publishes (step e s)) eqn:Hp.
  - by apply step_publishes_level.
  - by rewrite step_silent_fsm.
Qed.

Lemma run_stays_level (evs : list event) (s : Interrupt) :
  GpioState.is_level (FsmState s) ->
  Forall (fun o => GpioState.is_level (FsmState (after o))) (run evs s).
Proof.
  revert s. induction evs as [| e evs IH]; intros s Hl; cbn [run]; [constructor |].
  cbv zeta. pose proof (step_stays_level e s Hl) as Hs.
  constructor; [exact Hs | by apply IH].
Qed.

(** X8.  The parity law from any object settled at a level, the
    constructed one among them.  Along any sequence of raw states
    processed, timer expiries, interrupts consumed, runs of the
    interrupt handler and delays assigned: the pending count is the count at the start plus the
    number [N] of settled events less the number consumed; the settled
    states are the negation of the start state, then its negation, and
    so on; [fsm_state_] is a level after every step and changes in no
    step that does not publish a settled event. *)
Theorem parity_from_settled (s0 : Interrupt) (evs : list event) :
  GpioState.is_level (FsmState s0) ->
  let tr := run evs s0 in
  let N := length (settled tr) in
  PendingInterrupts s0 + Z.of_nat N
    <= uxMaxCount (interrupt_counting_semaphore_ s0) ->
  PendingInterrupts (final s0 tr)
  = PendingInterrupts s0 + Z.of_nat N - consumed tr /\
  settled_states tr = alternate (GpioState.operator_not (FsmState s0)) N /\
  Forall (fun o => GpioState.is_level (FsmState (after o))) tr /\
  fsm_changes_published s0 tr.
Proof.
  intros Hl tr N HN. split; [| split; [| split]].
  - by apply run_count.
  - by apply run_alternates.
  - by apply run_stays_level.
  - apply run_fsm_changes_published.
Qed.

Lemma parity_from_settled_witness :
  GpioState.is_level (FsmState bed_interrupt) /\
  PendingInterrupts bed_interrupt
  + Z.of_nat (length (settled (run bed_scenario bed_interrupt)))
    <= uxMaxCount (interrupt_counting_semaphore_ bed_interrupt) /\
  PendingInterrupts (final bed_interrupt (run bed_scenario bed_interrupt)) = 0 /\
  settled_states (run bed_scenario bed_interrupt) = [Low].
Proof.
  assert (H1 : GpioState.is_level (FsmState bed_interrupt)) by (by right).
  assert (H2 : PendingInterrupts bed_interrupt
               + Z.of_nat (length (settled (run bed_scenario bed_interrupt)))
               <= uxMaxCount (interrupt_counting_semaphore_ bed_interrupt))
    by (vm_compute; discriminate).
  split; [exact H1 |]. split; [exact H2 |].
  destruct (parity_from_settled bed_interrupt bed_scenario H1 H2) as (Hc & Hs & _).
  split; [exact Hc | exact Hs].
Defined.

Lemma timer_armed_by_transition_armed (s : Interrupt) :
  timer_armed_by_transition s -> timer_armed s.
Proof. intros Hs Ha. by destruct (Hs Ha). Qed.

Lemma step_timer_armed (e : event) (s : Interrupt) :
  timer_armed s -> timer_armed (after (step e s)).
Proof.
  unfold timer_armed. intros Hs.
  destruct s as [g i sem lo hi [a p] raw fsm prot]. cbn in Hs.
  destruct e as [new_state | | | level | ticks | ticks];
    unfold step, ProcessInterrupt, FsmTransition, FsmReset, TimerCallback,
      StateChanger, WaitForSingleInterrupt, assign_RawState,
      assign_GoHighTime, assign_GoLowTime,
      give_interrupt_counting_semaphore, FsmState, GoHighTime, GoLowTime in *;
    cbn in *; try exact Hs.
  - destruct (GpioState.eqb fsm Undefined); cbn; [exact Hs |].
    destruct (negb (GpioState.eqb fsm new_state)); cbn; [| done].
    destruct (GpioState.eqb new_state High).
    + destruct (lo =? 0) eqn:Hz; cbn; [exact Hs |].
      intros _. by apply Z.eqb_neq in Hz.
    + destruct (hi =? 0) eqn:Hz; cbn; [exact Hs |].
      intros _. by apply Z.eqb_neq in Hz.
  - destruct a; cbn; [done | exact Hs].
Qed.

Lemma step_timer_armed_by_transition (e : event) (s : Interrupt) :
  match e with SetGoHighTime _ | SetGoLowTime _ => False | _ => True end ->
  timer_armed_by_transition s ->
  timer_armed_by_transition (after (step e s)).
Proof.
  unfold timer_armed_by_transition. intros He Hs.
  destruct s as [g i sem lo hi [a p] raw fsm prot]. cbn in Hs.
  destruct e as [new_state | | | level | ticks | ticks];
    [ | | | | destruct He | destruct He];
    unfold step, ProcessInterrupt, FsmTransition, FsmReset, TimerCallback,
      StateChanger, WaitForSingleInterrupt, assign_RawState,
      give_interrupt_counting_semaphore, FsmState, GoHighTime, GoLowTime in *;
    cbn in *; try exact Hs.
  - destruct (GpioState.eqb fsm Undefined); cbn; [exact Hs |].
    destruct (negb (GpioState.eqb fsm new_state)); cbn; [| done].
    destruct (GpioState.eqb new_state High).
    + destruct (lo =? 0) eqn:Hz; cbn; [exact Hs |].
      intros _. apply Z.eqb_neq in Hz. auto.
    + destruct (hi =? 0) eqn:Hz; cbn; [exact Hs |].
      intros _. apply Z.eqb_neq in Hz. auto.
  - destruct a; cbn; [done | exact Hs].
Qed.

Lemma run_timer_armed (evs : list event) (s : Interrupt) :
  timer_armed s ->
  Forall (fun o => timer_armed (after o)) (run evs s).
Proof.
  revert s. induction evs as [| e evs IH]; intros s Hs; cbn [run]; [constructor |].
  cbv zeta. pose proof (step_timer_armed e s Hs) as Hn.
  constructor; [exact Hn | by apply IH].
Qed.

Lemma run_timer_armed_by_transition (evs : list event) (s : Interrupt) :
  delays_kept evs ->
  timer_armed_by_transition s ->
  Forall (fun o => timer_armed_by_transition (after o)) (run evs s).
Proof.
  intros Hk. revert s.
  induction Hk as [| e evs He Hk IH]; intros s Hs; cbn [run]; [constructor |].
  cbv zeta. pose proof (step_timer_armed_by_transition e s He Hs) as Hn.
  constructor; [exact Hn | by apply IH].
Qed.

(** Why the delays must be kept: the timer of the bed object runs with
    the fall delay of 20 ticks when both delays are assigned 7. *)
Example delay_assigned_under_running_timer :
  let s := final bed_interrupt
             (run [Process Low; SetGoLowTime 7; SetGoHighTime 7] bed_interrupt) in
  change_state_timer_ s = mkTimer true 20 /\
  GoHighTime s = 7 /\ GoLowTime s = 7 /\
  ~ timer_armed_by_transition s.
Proof.
  cbv zeta. repeat (split; [reflexivity |]).
  intros H. destruct (H eq_refl) as [_ [H7 | H7]]; discriminate H7.
Qed.

(** X9.  A running timer never has a zero period: that holds after every
    step of any sequence of events, the assignments of a delay through
    [GoHighTime()] and [GoLowTime()] included, from an object whose
    running timer was armed by [FsmTransition].  Along a sequence of
    events that assigns no delay, a running timer moreover carries one
    of the two delays of the object. *)
Theorem timer_runs_with_a_delay (evs : list event) (s : Interrupt) :
  timer_armed_by_transition s ->
  Forall (fun o => timer_armed (after o)) (run evs s) /\
  (delays_kept evs ->
   Forall (fun o => timer_armed_by_transition (after o)) (run evs s)).
Proof.
  intros Hs. split.
  - by apply run_timer_armed, timer_armed_by_transition_armed.
  - intros Hk. by apply run_timer_armed_by_transition.
Qed.

Lemma timer_runs_with_a_delay_witness :
  let evs := [Process Low; SetGoLowTime 7; Process High; Process Low; TimerExpiry] in
  timer_armed_by_transition bed_interrupt /\
  Forall (fun o => timer_armed (after o)) (run evs bed_interrupt).
Proof.
  intros evs.
  assert (H : timer_armed_by_transition bed_interrupt) by (intros H; discriminate H).
  split; [exact H |].
  exact (proj1 (timer_runs_with_a_delay evs bed_interrupt H)).
Defined.

End InterruptMore.

(** ** Further properties of the registry *)

Section RegistryMore.

Local Ltac world_simpl :=
  cbn [objects gpio_to_id_map id_to_interrupt_map used_ids global_vars_mutex
       interrupt_daemon_task_handle previous_state tasks
       set_objects set_gpio_to_id_map set_id_to_interrupt_map set_used_ids
       set_global_vars_mutex set_interrupt_daemon_task_handle
       set_previous_state set_tasks set_task interrupt_initialized
       set_interrupt_initialized] in *.

(** What a registration that returns has done. *)
Lemma AssignId_Done (a : answers) (this : ptr) (w w' : World) :
  AssignIdStoreInMapsAndCreateDaemonTask a this w = Done w' ->
  exists w1 w2 id obj,
    gpio_to_id_map w1 = gpio_to_id_map w /\
    used_ids w1 = used_ids w /\
    FindFreeId w1 = Done (id, w2) /\
    objects w !! this = Some obj /\
    gpio_to_id_map w' = <[Interrupt.GpioNum obj := id]> (gpio_to_id_map w) /\
    id_to_interrupt_map w' = <[id := this]> (id_to_interrupt_map w) /\
    used_ids w' = used_ids w2 /\
    objects w' = objects w /\
    previous_state w' = previous_state w /\
    interrupt_initialized w' = interrupt_initialized w.
Proof.
  unfold AssignIdStoreInMapsAndCreateDaemonTask.
  destruct (CreateGlobalVarsMutexIfNotCreated (global_vars_mutex_created a) w)
    as [w0 | |] eqn:Hc; cbn [mbind outcome_bind]; try done.
  assert (H0 : gpio_to_id_map w0 = gpio_to_id_map w /\ used_ids w0 = used_ids w /\
               objects w0 = objects w /\ id_to_interrupt_map w0 = id_to_interrupt_map w /\
               previous_state w0 = previous_state w /\
               interrupt_initialized w0 = interrupt_initialized w).
  { revert Hc. unfold CreateGlobalVarsMutexIfNotCreated.
    destruct (global_vars_mutex w); [by intros [= <-] |].
    destruct (global_vars_mutex_created a); world_simpl; [| done].
    by intros [= <-]. }
  clear Hc. destruct H0 as (Hg0 & Hu0 & Ho0 & Hi0 & Hp0 & Hf0).
  unfold take_global_vars_mutex. destruct (global_vars_mutex w0) as [q |]; [| done].
  destruct (fst (xSemaphoreTake q)); [| done]. cbn [mbind outcome_bind].
  match goal with
  | |- context [mbind _ ?m] =>
      match m with
      | (if bitset.none _ then _ else _) => destruct m as [w1 | |] eqn:Ht
      end
  end; cbn [mbind outcome_bind]; try done.
  assert (H1 : gpio_to_id_map w1 = gpio_to_id_map w /\ used_ids w1 = used_ids w /\
               objects w1 = objects w /\ id_to_interrupt_map w1 = id_to_interrupt_map w /\
               previous_state w1 = previous_state w /\
               interrupt_initialized w1 = interrupt_initialized w).
  { revert Ht. world_simpl. destruct (bitset.none _).
    - cbv zeta. destruct (c_assert _); cbn [mbind outcome_bind]; try done.
      intros [= <-]. unfold xTaskCreatePinnedToCore.
      by destruct (_ =? pdPASS).
    - by intros [= <-]. }
  clear Ht. destruct H1 as (Hg1 & Hu1 & Ho1 & Hi1 & Hp1 & Hf1).
  destruct (c_assert _); try done. cbn [mbind outcome_bind].
  unfold FindFreeId at 1.
  destruct (mark_used (used_ids w1) (map_to_list (gpio_to_id_map w1)))
    as [used | |] eqn:Hm; try done.
  cbn [mbind outcome_bind fst snd]. world_simpl. rewrite Ho1.
  destruct (objects w !! this) as [obj |] eqn:Hobj; [| done].
  unfold give_global_vars_mutex. world_simpl.
  destruct (global_vars_mutex w1); [| done]. intros [= <-].
  eexists w1, _, _, obj. split; [done |]. split; [done |].
  split; [unfold FindFreeId; rewrite Hm; reflexivity |].
  world_simpl. by rewrite Hg1, Hi1, Hp1, Ho1, Hf1.
Qed.

Lemma Interrupt_ctor_Done (a : answers) (this : ptr) (gpio_num rise fall : Z)
    (inverse_logic : bool) (w w' : World) :
  Interrupt_ctor a this gpio_num rise fall inverse_logic w = Done w' ->
  exists w1 w2 id,
    gpio_to_id_map w1 = gpio_to_id_map w /\
    used_ids w1 = used_ids w /\
    FindFreeId w1 = Done (id, w2) /\
    gpio_to_id_map w' = <[gpio_num := id]> (gpio_to_id_map w) /\
    id_to_interrupt_map w' = <[id := this]> (id_to_interrupt_map w) /\
    used_ids w' = used_ids w2 /\
    objects w'
    = <[this := Interrupt.init gpio_num rise fall inverse_logic]> (objects w) /\
    previous_state w' = previous_state w.
Proof.
  unfold Interrupt_ctor.
  destruct (c_assert (protect_timer_semaphore_created a));
    cbn [mbind outcome_bind]; try done.
  destruct (c_assert (interrupt_counting_semaphore_created a));
    cbn [mbind outcome_bind]; try done.
  destruct (AssignIdStoreInMapsAndCreateDaemonTask a this _) as [wr | |] eqn:Hreg;
    cbn [mbind outcome_bind]; try done.
  destruct (c_assert (change_state_timer_created a));
    cbn [mbind outcome_bind]; try done.
  destruct (ESP_ERROR_CHECK (gpio_config_ret a));
    cbn [mbind outcome_bind]; try done.
  destruct (InstallIsrService _ _) as [r | |];
    cbn [mbind outcome_bind]; try done.
  destruct (ESP_ERROR_CHECK (gpio_isr_handler_add_ret a));
    cbn [mbind outcome_bind]; try done.
  intros [= <-].
  destruct (AssignId_Done _ _ _ _ Hreg)
    as (w1 & w2 & id & obj & Hg & Hu & Hf & Hobj & Hg' & Hi' & Hu' & Ho' & Hp' & _).
  world_simpl. rewrite lookup_insert_eq in Hobj. injection Hobj as <-.
  by exists w1, w2, id.
Qed.

Lemma registry_ok_power_on : registry_ok power_on.
Proof.
  split; cbn.
  - intros gpio id H. by rewrite lookup_empty in H.
  - intros g1 g2 id H. by rewrite lookup_empty in H.
  - intros j. rewrite lookup_empty, Z.bits_0. split.
    + by intros [? ?].
    + intros [_ [? | [gpio H]]]; [done |]. by rewrite lookup_empty in H.
Qed.

(** The least-unused id of [FindFreeId], read with the consistency of
    the registry: below [MAX_INTERRUPTS] it is the least id that has no
    object. *)
Lemma FindFreeId_no_object (w w1 w2 : World) (id : Z) :
  registry_ok w ->
  gpio_to_id_map w1 = gpio_to_id_map w ->
  used_ids w1 = used_ids w ->
  FindFreeId w1 = Done (id, w2) ->
  0 <= id <= MAX_INTERRUPTS /\
  (id < MAX_INTERRUPTS -> id_to_interrupt_map w !! id = None) /\
  (forall j, 0 <= j < id -> is_Some (id_to_interrupt_map w !! j)) /\
  (forall j, 0 <= j ->
     Z.testbit (used_ids w2) j = true <-> is_Some (id_to_interrupt_map w !! j)).
Proof.
  intros [Hrange Huniq Hobj] Hg Hu Hf.
  assert (Hpos : map_Forall (fun _ v => 0 <= v) (gpio_to_id_map w1)).
  { rewrite Hg. intros g v Hv. by apply (Hrange g v). }
  destruct (FindFreeId_least_unused _ _ _ Hpos Hf) as (Hr & Hlow & Hfree & Hbits).
  rewrite Hg, Hu in *.
  split; [exact Hr |]. split; [| split].
  - intros Hlt. destruct (id_to_interrupt_map w !! id) eqn:E; [| done].
    destruct (Hfree Hlt). apply Hobj. by rewrite E.
  - intros j Hj. apply Hobj. split; [lia |]. by apply Hlow.
  - intros j Hj. rewrite (Hbits j Hj), Hobj. tauto.
Qed.

(** X10.  A construction that returns gives the object the least id
    that no object holds, or [MAX_INTERRUPTS] when the ids 0 to 31 all
    have one.  The object is found back from its line,
    [id_to_interrupt_map[gpio_to_id_map[gpio_num]]] is the object, and
    the entries of the other lines and of the other ids are as
    before. *)
Theorem construction_takes_least_free_id (a : answers) (this : ptr)
    (gpio_num rise fall : Z) (inverse_logic : bool) (w w' : World) :
  registry_ok w ->
  Interrupt_ctor a this gpio_num rise fall inverse_logic w = Done w' ->
  exists id,
    gpio_to_id_map w' !! gpio_num = Some id /\
    id_to_interrupt_map w' !! id = Some this /\
    objects w' !! this = Some (Interrupt.init gpio_num rise fall inverse_logic) /\
    0 <= id <= MAX_INTERRUPTS /\
    (id < MAX_INTERRUPTS -> id_to_interrupt_map w !! id = None) /\
    (forall j, 0 <= j < id -> is_Some (id_to_interrupt_map w !! j)) /\
    (forall g, g <> gpio_num -> gpio_to_id_map w' !! g = gpio_to_id_map w !! g) /\
    (forall j, j <> id -> id_to_interrupt_map w' !! j = id_to_interrupt_map w !! j).
Proof.
  intros Hok Hrun.
  destruct (Interrupt_ctor_Done _ _ _ _ _ _ _ _ Hrun)
    as (w1 & w2 & id & Hg & Hu & Hf & Hg' & Hi' & Hu' & Ho' & _).
  destruct (FindFreeId_no_object _ _ _ _ Hok Hg Hu Hf) as (Hr & Hnone & Hlow & _).
  exists id. rewrite Hg', Hi', Ho'.
  split; [apply lookup_insert_eq |]. split; [apply lookup_insert_eq |].
  split; [apply lookup_insert_eq |]. split; [exact Hr |].
  split; [exact Hnone |]. split; [exact Hlow |]. split.
  - intros g Hne. by apply lookup_insert_ne.
  - intros j Hne. by apply lookup_insert_ne.
Qed.

Lemma construction_takes_least_free_id_witness :
  registry_ok power_on /\
  Interrupt_ctor all_well bed 3 20 20 true power_on = Done one_source /\
  exists id,
    gpio_to_id_map one_source !! 3 = Some id /\
    id_to_interrupt_map one_source !! id = Some bed.
Proof.
  assert (Hrun : Interrupt_ctor all_well bed 3 20 20 true power_on = Done one_source)
    by (vm_compute; reflexivity).
  split; [exact registry_ok_power_on |]. split; [exact Hrun |].
  destruct (construction_takes_least_free_id _ _ _ _ _ _ _ _ registry_ok_power_on Hrun)
    as (id & H1 & H2 & _).
  by exists id.
Defined.

(** X11.  A construction that returns keeps the registry consistent:
    no two lines share an id below [MAX_INTERRUPTS], and the ids that
    have an object are those marked in [used_ids] or held by a line. *)
Theorem construction_keeps_registry_ok (a : answers) (this : ptr)
    (gpio_num rise fall : Z) (inverse_logic : bool) (w w' : World) :
  registry_ok w ->
  Interrupt_ctor a this gpio_num rise fall inverse_logic w = Done w' ->
  registry_ok w'.
Proof.
  intros Hok Hrun.
  destruct (Interrupt_ctor_Done _ _ _ _ _ _ _ _ Hrun)
    as (w1 & w2 & id & Hg & Hu & Hf & Hg' & Hi' & Hu' & Ho' & _).
  destruct (FindFreeId_no_object _ _ _ _ Hok Hg Hu Hf) as (Hr & Hnone & Hlow & Hbits).
  destruct Hok as [Hrange Huniq Hobj].
  split; rewrite ?Hg', ?Hi', ?Hu'.
  - intros g v. rewrite lookup_insert. case_decide.
    + by intros [= <-].
    + apply Hrange.
  - intros g1 g2 v. rewrite !lookup_insert. repeat case_decide; subst.
    + done.
    + intros [= <-] H2 Hlt. specialize (Hnone Hlt).
      assert (Hs : is_Some (id_to_interrupt_map w !! id)).
      { apply Hobj. split; [lia |]. right. by exists g2. }
      rewrite Hnone in Hs. by destruct Hs.
    + intros H1 [= <-] Hlt. specialize (Hnone Hlt).
      assert (Hs : is_Some (id_to_interrupt_map w !! id)).
      { apply Hobj. split; [lia |]. right. by exists g1. }
      rewrite Hnone in Hs. by destruct Hs.
    + apply Huniq.
  - intros j. rewrite lookup_insert. case_decide as Hj.
    + subst j. split; [| by eauto]. intros _. split; [lia |]. right.
      exists gpio_num. apply lookup_insert_eq.
    + split.
      * intros Hs. pose proof Hs as Hs'. apply Hobj in Hs' as [Hj0 _].
        split; [exact Hj0 |]. left. by apply Hbits.
      * intros [Hj0 [Hb | [g Hgj]]].
        -- by apply Hbits.
        -- rewrite lookup_insert in Hgj. case_decide.
           ++ injection Hgj as <-. done.
           ++ apply Hobj. split; [exact Hj0 |]. right. by exists g.
Qed.

Lemma construction_keeps_registry_ok_witness :
  registry_ok power_on /\
  Interrupt_ctor all_well bed 3 20 20 true power_on = Done one_source /\
  registry_ok one_source.
Proof.
  assert (Hrun : Interrupt_ctor all_well bed 3 20 20 true power_on = Done one_source)
    by (vm_compute; reflexivity).
  split; [exact registry_ok_power_on |]. split; [exact Hrun |].
  exact (construction_keeps_registry_ok _ _ _ _ _ _ _ _ registry_ok_power_on Hrun).
Defined.

Lemma bitset_set_already (b pos : Z) :
  0 <= pos < MAX_INTERRUPTS -> Z.testbit b pos = true -> bitset.set b pos = Done b.
Proof.
  intros Hp Hb. unfold bitset.set. rewrite (proj2 (Z.ltb_lt _ _) (proj2 Hp)).
  f_equal. apply Z.bits_inj'. intros n Hn.
  rewrite Z.lor_spec, Z.shiftl_1_l, Z.pow2_bits_eqb by lia.
  destruct (Z.eqb_spec pos n) as [<- | ?]; [by rewrite Hb | apply orb_false_r].
Qed.

Lemma mark_used_already (b : Z) (kvs : list (Z * Z)) :
  Forall (fun kv => 0 <= snd kv < MAX_INTERRUPTS /\ Z.testbit b (snd kv) = true) kvs ->
  mark_used b kvs = Done b.
Proof.
  induction 1 as [| kv kvs [Hr Hb] _ IH]; [done |].
  cbn [mark_used foldr]. fold (mark_used b kvs). rewrite IH.
  cbn [mbind outcome_bind]. by apply bitset_set_already.
Qed.

(** X12.  [FindFreeId] only adds bits to [used_ids], and asking again
    without a registration in between returns the same id and changes
    nothing more. *)
Theorem FindFreeId_again (w w' : World) (id : Z) :
  map_Forall (fun _ v => 0 <= v) (gpio_to_id_map w) ->
  FindFreeId w = Done (id, w') ->
  FindFreeId w' = Done (id, w') /\
  forall j, Z.testbit (used_ids w) j = true -> Z.testbit (used_ids w') j = true.
Proof.
  intros Hpos. unfold FindFreeId at 1.
  destruct (mark_used (used_ids w) (map_to_list (gpio_to_id_map w)))
    as [b | |] eqn:Hm; cbn [mbind outcome_bind]; try discriminate.
  intros Heq.
  assert (Hid : id = FindFreeId_loop b 0 (Z.to_nat MAX_INTERRUPTS)) by congruence.
  assert (Hw : w' = set_used_ids b w) by congruence.
  clear Heq. subst id w'.
  assert (Hl : Forall (fun kv : Z * Z => 0 <= snd kv) (map_to_list (gpio_to_id_map w))).
  { apply Forall_forall. intros [k v] Hin%elem_of_map_to_list. exact (Hpos k v Hin). }
  split.
  - unfold FindFreeId. cbn [used_ids gpio_to_id_map set_used_ids].
    rewrite mark_used_already; [reflexivity |].
    apply Forall_forall. intros kv Hin.
    pose proof (proj1 (Forall_forall _ _) Hl kv Hin) as Hkv.
    destruct (mark_used_testbit _ _ _ (snd kv) Hl Hkv Hm) as [Hlt Hb].
    split; [split; [exact Hkv |] |].
    + exact (proj1 (Forall_forall _ _) Hlt kv Hin).
    + apply Hb. right. by apply list_elem_of_fmap_2.
  - intros j Hj. cbn [used_ids set_used_ids].
    destruct (Z.le_gt_cases 0 j) as [Hj0 | Hneg].
    + apply (mark_used_testbit _ _ _ j Hl Hj0 Hm). by left.
    + by rewrite Z.testbit_neg_r in Hj.
Qed.

Lemma FindFreeId_again_witness :
  map_Forall (fun _ v => 0 <= v) (gpio_to_id_map two_sources) /\
  FindFreeId two_sources = Done (2, set_used_ids 3 two_sources) /\
  FindFreeId (set_used_ids 3 two_sources) = Done (2, set_used_ids 3 two_sources).
Proof.
  assert (Hpos : map_Forall (fun _ v => 0 <= v) (gpio_to_id_map two_sources)).
  { apply map_Forall_to_list. vm_compute. repeat constructor; discriminate. }
  assert (Hf : FindFreeId two_sources = Done (2, set_used_ids 3 two_sources))
    by (vm_compute; reflexivity).
  split; [exact Hpos |]. split; [exact Hf |].
  exact (proj1 (FindFreeId_again _ _ _ Hpos Hf)).
Defined.

Lemma mark_used_succeeds (used : Z) (kvs : list (Z * Z)) :
  Forall (fun kv => snd kv < MAX_INTERRUPTS) kvs ->
  exists b, mark_used used kvs = Done b.
Proof.
  induction 1 as [| kv kvs Hkv _ [b IH]]; [by exists used |].
  cbn [mark_used foldr]. fold (mark_used used kvs). rewrite IH.
  cbn [mbind outcome_bind]. unfold bitset.set.
  rewrite (proj2 (Z.ltb_lt _ _) Hkv). by eexists.
Qed.

Lemma AssignId_returns (a : answers) (this : ptr) (w : World) :
  is_Some (objects w !! this) ->
  global_vars_mutex w = None \/ global_vars_mutex w = Some xSemaphoreCreateMutex ->
  used_ids w <> UINT32_MAX ->
  map_Forall (fun _ id => id < MAX_INTERRUPTS) (gpio_to_id_map w) ->
  (global_vars_mutex w = None -> global_vars_mutex_created a = true) ->
  (bitset.none (used_ids w) = true -> xTaskCreatePinnedToCore_ret a <> 0) ->
  let created :=
    bitset.none (used_ids w) && (xTaskCreatePinnedToCore_ret a =? pdPASS) in
  exists w',
    AssignIdStoreInMapsAndCreateDaemonTask a this w = Done w' /\
    global_vars_mutex w' = Some xSemaphoreCreateMutex /\
    interrupt_initialized w' = interrupt_initialized w /\
    tasks w' = tasks w ++ (if created then [mkTask Waiting 0] else []) /\
    interrupt_daemon_task_handle w'
    = if created then Some (length (tasks w))
      else interrupt_daemon_task_handle w.
Proof.
  intros [obj Hobj] Hmutex Hfull Hids Hmx Htk created. subst created.
  assert (Hl : Forall (fun kv : Z * Z => snd kv < MAX_INTERRUPTS)
                 (map_to_list (gpio_to_id_map w))).
  { apply Forall_forall. intros [k v] Hin%elem_of_map_to_list. exact (Hids k v Hin). }
  destruct (mark_used_succeeds (used_ids w) _ Hl) as [b Hb].
  apply Z.eqb_neq in Hfull.
  unfold AssignIdStoreInMapsAndCreateDaemonTask, CreateGlobalVarsMutexIfNotCreated,
    FindFreeId, take_global_vars_mutex, give_global_vars_mutex.
  destruct Hmutex as [Hm | Hm]; rewrite Hm; [rewrite (Hmx Hm) |];
    world_simpl; cbn [mbind outcome_bind]; world_simpl; rewrite ?Hm;
    cbn [xSemaphoreCreateMutex xSemaphoreTake uxCount uxMaxCount Z.ltb Z.compare
         fst snd mbind outcome_bind];
    world_simpl.
  all: destruct (bitset.none (used_ids w)) eqn:Hnone; cbn [andb].
  all: try (apply Z.eqb_neq in Htk; [| reflexivity]; rewrite Htk;
            cbn [negb c_assert mbind outcome_bind]; unfold xTaskCreatePinnedToCore;
            destruct (_ =? pdPASS)).
  all: cbn [mbind outcome_bind]; world_simpl.
  all: unfold bitset.all; rewrite Hfull; cbn [negb c_assert mbind outcome_bind].
  all: rewrite Hb; cbn [mbind outcome_bind fst snd]; world_simpl.
  all: rewrite Hobj; world_simpl.
  all: eexists; split; [reflexivity |]; world_simpl.
  all: by rewrite ?app_nil_r.
Qed.
Lemma InstallIsrService_sets_flag (ret : Z) (interrupt_initialized : bool) :
  (interrupt_initialized = false -> ret = ESP_OK \/ ret = ESP_ERR_INVALID_STATE) ->
  exists called,
    InstallIsrService ret interrupt_initialized = Done (true, called).
Proof.
  intros Hret. unfold InstallIsrService.
  destruct interrupt_initialized; cbn [negb]; [by eexists |].
  destruct (Hret eq_refl) as [-> | ->]; by eexists.
Qed.

Lemma Interrupt_ctor_returns (a : answers) (this : ptr) (gpio_num rise fall : Z)
    (inverse_logic : bool) (w : World) :
  global_vars_mutex w = None \/ global_vars_mutex w = Some xSemaphoreCreateMutex ->
  used_ids w <> UINT32_MAX ->
  map_Forall (fun _ id => id < MAX_INTERRUPTS) (gpio_to_id_map w) ->
  answers_suffice a w ->
  let created :=
    bitset.none (used_ids w) && (xTaskCreatePinnedToCore_ret a =? pdPASS) in
  exists w',
    Interrupt_ctor a this gpio_num rise fall inverse_logic w = Done w' /\
    global_vars_mutex w' = Some xSemaphoreCreateMutex /\
    interrupt_initialized w' = true /\
    tasks w' = tasks w ++ (if created then [mkTask Waiting 0] else []) /\
    interrupt_daemon_task_handle w'
    = if created then Some (length (tasks w))
      else interrupt_daemon_task_handle w.
Proof.
  intros Hmutex Hfull Hids [Hps Hcs Hmx Htk Htm Hgc Hin Hha] created.
  set (obj := Interrupt.init gpio_num rise fall inverse_logic).
  destruct (AssignId_returns a this (set_objects (<[this := obj]> (objects w)) w))
    as (wr & Hreg & Hm & Hflag & Htasks & Hhandle); try done.
  { world_simpl. rewrite lookup_insert_eq. by eexists. }
  world_simpl.
  destruct (InstallIsrService_sets_flag (gpio_install_isr_service_ret a)
              (interrupt_initialized wr)) as [called Hcall].
  { by rewrite Hflag. }
  unfold Interrupt_ctor. rewrite Hps, Hcs. cbn [c_assert mbind outcome_bind].
  fold obj. rewrite Hreg. cbn [mbind outcome_bind].
  rewrite Htm, Hgc, Hha, Hcall. cbn [c_assert ESP_ERROR_CHECK ESP_OK Z.eqb
    mbind outcome_bind fst].
  eexists. split; [reflexivity |]. world_simpl. by rewrite Hm.
Qed.





Lemma answers_suffice_all_well (w : World) : answers_suffice all_well w.
Proof. split; try reflexivity; try discriminate; by left. Qed.


(** X14.  With every creation and driver call succeeding, the first two
    constructions each create a daemon task, whatever the objects and
    their lines: the first leaves no bit set in [used_ids], so the
    second finds [used_ids.none()] again.  Two tasks exist afterwards,
    the handle names the second, and the first waits with no handle left
    to notify it. *)
Theorem first_two_constructions_create_two_tasks
    (this1 this2 : ptr) (gpio1 gpio2 rise1 fall1 rise2 fall2 : Z)
    (inverse1 inverse2 : bool) :
  exists w1 w2,
    Interrupt_ctor all_well this1 gpio1 rise1 fall1 inverse1 power_on = Done w1 /\
    used_ids w1 = 0 /\
    tasks w1 = [mkTask Waiting 0] /\
    interrupt_daemon_task_handle w1 = Some 0%nat /\
    Interrupt_ctor all_well this2 gpio2 rise2 fall2 inverse2 w1 = Done w2 /\
    used_ids w2 = 1 /\
    tasks w2 = [mkTask Waiting 0; mkTask Waiting 0] /\
    interrupt_daemon_task_handle w2 = Some 1%nat.
Proof.
  destruct (Interrupt_ctor_returns all_well this1 gpio1 rise1 fall1 inverse1 power_on)
    as (w1 & Hrun1 & Hmutex1 & _ & Htasks1 & Hhandle1);
    [by left | discriminate | apply map_Forall_empty
    | apply answers_suffice_all_well |].
  cbn in Htasks1, Hhandle1.
  destruct (Interrupt_ctor_Done _ _ _ _ _ _ _ _ Hrun1)
    as (wa & wb & id1 & Hga & Hua & Hfa & Hg1 & _ & Hu1 & _).
  unfold FindFreeId in Hfa. rewrite Hga, Hua in Hfa. cbn [power_on used_ids
    gpio_to_id_map] in Hfa. rewrite map_to_list_empty in Hfa.
  cbn [mark_used foldr mbind outcome_bind] in Hfa.
  assert (Hid1 : id1 = 0) by (vm_compute in Hfa; congruence).
  assert (Hwb : used_ids wb = 0) by (injection Hfa as _ <-; reflexivity).
  rewrite Hwb in Hu1. subst id1. cbn [power_on gpio_to_id_map] in Hg1.
  rewrite insert_empty in Hg1.
  destruct (Interrupt_ctor_returns all_well this2 gpio2 rise2 fall2 inverse2 w1)
    as (w2 & Hrun2 & Hmutex2 & _ & Htasks2 & Hhandle2).
  { by right. }
  { rewrite Hu1. discriminate. }
  { rewrite Hg1. by apply map_Forall_singleton. }
  { apply answers_suffice_all_well. }
  rewrite Hu1, Htasks1 in Htasks2, Hhandle2. cbn in Htasks2, Hhandle2.
  destruct (Interrupt_ctor_Done _ _ _ _ _ _ _ _ Hrun2)
    as (wc & wd & id2 & Hgc & Huc & Hfc & _ & _ & Hu2 & _).
  unfold FindFreeId in Hfc. rewrite Hgc, Huc, Hg1, Hu1 in Hfc.
  rewrite map_to_list_singleton in Hfc.
  cbn [mark_used foldr mbind outcome_bind snd bitset.set] in Hfc.
  assert (Hwd : used_ids wd = 1) by (injection Hfc as _ <-; reflexivity).
  exists w1, w2. rewrite Hu2, Hwd. by repeat split.
Qed.

End RegistryMore.

(** ** Further properties of the hand-off *)

Section HandoffMore.

Local Ltac world_simpl :=
  cbn [objects gpio_to_id_map id_to_interrupt_map used_ids global_vars_mutex
       interrupt_daemon_task_handle previous_state tasks
       set_objects set_gpio_to_id_map set_id_to_interrupt_map set_used_ids
       set_global_vars_mutex set_interrupt_daemon_task_handle
       set_previous_state set_tasks set_task interrupt_initialized
       set_interrupt_initialized] in *.

(** X15.  The interrupt handler writes no object.  Its assignment to
    [RawState()] stores into the temporary the getter returns, so
    [raw_state_], like [fsm_state_], the pending count and the timer,
    stays as it is in every object, the one of the line included; the
    handler also leaves [previous_state], [used_ids],
    [id_to_interrupt_map], the task handle, the number of tasks and the
    flag of [InstallIsrService] as they are. *)
Theorem InterruptHandler_frame (arg : ptr) (raw_gpio_level : Z) (w w' : World) :
  InterruptHandler arg raw_gpio_level w = Done w' ->
  is_Some (objects w !! arg) /\
  objects w' = objects w /\
  previous_state w' = previous_state w /\
  used_ids w' = used_ids w /\
  id_to_interrupt_map w' = id_to_interrupt_map w /\
  interrupt_daemon_task_handle w' = interrupt_daemon_task_handle w /\
  interrupt_initialized w' = interrupt_initialized w /\
  length (tasks w') = length (tasks w).
Proof.
  unfold InterruptHandler. destruct (objects w !! arg) as [obj |] eqn:Hobj; [| done].
  destruct (global_vars_mutex w) as [q |]; [| done].
  destruct (fst (xSemaphoreTake q)).
  - unfold xTaskNotifyFromISR. world_simpl.
    destruct (interrupt_daemon_task_handle w) as [h |] eqn:Hh; [| done].
    cbn [mbind outcome_bind give_global_vars_mutex]. world_simpl.
    intros [= <-]. world_simpl. rewrite length_alter.
    by repeat split.
  - intros [= <-]. by repeat split.
Qed.

Lemma InterruptHandler_frame_witness :
  InterruptHandler bed 0 two_sources = Done bed_edge /\
  objects bed_edge = objects two_sources /\
  Interrupt.RawState <$> objects bed_edge !! bed = Some Undefined.
Proof.
  assert (Hrun : InterruptHandler bed 0 two_sources = Done bed_edge)
    by (vm_compute; reflexivity).
  split; [exact Hrun |].
  destruct (InterruptHandler_frame _ _ _ _ Hrun) as (_ & Ho & _).
  split; [exact Ho |]. rewrite Ho. vm_compute; reflexivity.
Defined.

(** X16.  The interrupt handler returns with the mutex as it found it:
    free when it was free, taken when it was taken. *)
Theorem InterruptHandler_restores_mutex (arg : ptr) (raw_gpio_level : Z)
    (w w' : World) :
  global_vars_mutex w = Some xSemaphoreCreateMutex \/
  global_vars_mutex w = Some (mkSemaphore 0 1) ->
  InterruptHandler arg raw_gpio_level w = Done w' ->
  global_vars_mutex w' = global_vars_mutex w.
Proof.
  intros Hm. unfold InterruptHandler.
  destruct (objects w !! arg) as [obj |]; [| done].
  destruct Hm as [Hm | Hm]; rewrite Hm; cbn [xSemaphoreCreateMutex xSemaphoreTake
    uxCount uxMaxCount Z.ltb Z.compare fst snd].
  - unfold xTaskNotifyFromISR. world_simpl.
    destruct (interrupt_daemon_task_handle w); [| done].
    cbn [mbind outcome_bind give_global_vars_mutex]. world_simpl.
    by intros [= <-].
  - by intros [= <-].
Qed.

Lemma InterruptHandler_restores_mutex_witness :
  (global_vars_mutex two_sources = Some xSemaphoreCreateMutex \/
   global_vars_mutex two_sources = Some (mkSemaphore 0 1)) /\
  InterruptHandler bed 0 two_sources = Done bed_edge /\
  global_vars_mutex bed_edge = global_vars_mutex two_sources.
Proof.
  assert (Hm : global_vars_mutex two_sources = Some xSemaphoreCreateMutex \/
               global_vars_mutex two_sources = Some (mkSemaphore 0 1))
    by (left; vm_compute; reflexivity).
  assert (Hrun : InterruptHandler bed 0 two_sources = Done bed_edge)
    by (vm_compute; reflexivity).
  split; [exact Hm |]. split; [exact Hrun |].
  exact (InterruptHandler_restores_mutex _ _ _ _ Hm Hrun).
Defined.

(** X17.  [Debouncer] leaves [previous_state] at the raw state it was
    called with, touches no object but its own and no part of the
    registry, and a second call with the same raw state, for any
    object, does nothing. *)
Theorem Debouncer_once (this : ptr) (new_state : GpioState) (w w1 : World) :
  Debouncer this new_state w = Done w1 ->
  previous_state w1 = new_state /\
  (forall p, p <> this -> objects w1 !! p = objects w !! p) /\
  gpio_to_id_map w1 = gpio_to_id_map w /\
  id_to_interrupt_map w1 = id_to_interrupt_map w /\
  used_ids w1 = used_ids w /\
  global_vars_mutex w1 = global_vars_mutex w /\
  tasks w1 = tasks w /\
  forall other, Debouncer other new_state w1 = Done w1.
Proof.
  unfold Debouncer at 1.
  destruct (GpioState.eqb (previous_state w) new_state) eqn:Heq; cbn [negb].
  - intros [= <-]. apply GpioState_eqb_eq in Heq.
    split; [exact Heq |]. split; [done |]. do 5 (split; [done |]).
    intros other. by apply Debouncer_same_as_previous.
  - world_simpl. destruct (objects w !! this) as [obj |]; [| done].
    intros [= <-]. world_simpl. split; [done |]. split.
    + intros p Hp. by rewrite lookup_insert_ne.
    + do 5 (split; [done |]). intros other. by apply Debouncer_same_as_previous.
Qed.

Lemma Debouncer_once_witness :
  exists w1, Debouncer pir Low two_sources = Done w1 /\ Debouncer bed Low w1 = Done w1.
Proof.
  destruct (Debouncer pir Low two_sources) as [w1 | |] eqn:Hrun.
  - exists w1. split; [reflexivity |].
    exact (proj2 (proj2 (proj2 (proj2 (proj2 (proj2 (proj2
             (Debouncer_once _ _ _ _ Hrun))))))) bed).
  - vm_compute in Hrun. discriminate.
  - vm_compute in Hrun. discriminate.
Defined.

(** X18.  For a bit position below 32, [CreateBitMaskAt] is the word
    with that bit alone: it fits 32 bits, and the masks of two different
    positions share no bit. *)
Theorem CreateBitMaskAt_one_bit (p : Z) :
  0 <= p < MAX_INTERRUPTS ->
  0 < CreateBitMaskAt p <= UINT32_MAX /\
  (forall j, Z.testbit (CreateBitMaskAt p) j = (j =? p)) /\
  (forall q, 0 <= q < MAX_INTERRUPTS -> q <> p ->
             Z.land (CreateBitMaskAt p) (CreateBitMaskAt q) = 0).
Proof.
  intros Hp.
  assert (Hbit : forall q j, 0 <= q < MAX_INTERRUPTS ->
                   Z.testbit (CreateBitMaskAt q) j = (j =? q)).
  { intros q j Hq. rewrite CreateBitMaskAt_testbit, Z.shiftl_1_l by done.
    destruct (Z.le_gt_cases 0 j) as [Hj | Hj].
    - rewrite Z.pow2_bits_eqb by lia. apply Z.eqb_sym.
    - rewrite Z.testbit_neg_r by done. symmetry. apply Z.eqb_neq. lia. }
  split; [| split].
  - rewrite CreateBitMaskAt_testbit, Z.shiftl_1_l by done.
    unfold MAX_INTERRUPTS, UINT32_MAX in *.
    assert (0 < 2 ^ p) by (apply Z.pow_pos_nonneg; lia).
    assert (2 ^ p < 2 ^ 32) by (apply Z.pow_lt_mono_r; lia). lia.
  - intros j. by apply Hbit.
  - intros q Hq Hne. apply Z.bits_inj'. intros j Hj.
    rewrite Z.land_spec, !Hbit, Z.bits_0 by done.
    destruct (Z.eqb_spec j p), (Z.eqb_spec j q); try done. congruence.
Qed.

Lemma CreateBitMaskAt_one_bit_witness :
  0 <= 5 < MAX_INTERRUPTS /\ Z.testbit (CreateBitMaskAt 5) 5 = true.
Proof.
  assert (Hp : 0 <= 5 < MAX_INTERRUPTS) by (split; [discriminate | reflexivity]).
  split; [exact Hp |].
  exact (proj1 (proj2 (CreateBitMaskAt_one_bit 5 Hp)) 5).
Defined.

(** X19.  [InstallIsrService] asks the driver once.  Of any number of
    calls the first calls [gpio_install_isr_service]; when the answer is
    [ESP_OK] or [ESP_ERR_INVALID_STATE] the flag is set and no later
    call reaches the driver, whatever it would answer; any other answer
    aborts. *)
Theorem InstallIsrService_asks_once (ret : Z) (rets : list Z) :
  InstallIsrService_calls (ret :: rets) false
  = if (ret =? ESP_OK) || (ret =? ESP_ERR_INVALID_STATE)
    then Done (true, 1%nat) else Aborted.
Proof.
  assert (Hset : forall l, InstallIsrService_calls l true = Done (true, O)).
  { induction l as [| r l IH]; [done |].
    cbn [InstallIsrService_calls InstallIsrService negb mbind outcome_bind fst snd].
    by rewrite IH. }
  cbn [InstallIsrService_calls]. unfold InstallIsrService. cbn [negb].
  destruct (ret =? ESP_ERR_INVALID_STATE) eqn:Hinv.
  - cbn [mbind outcome_bind fst snd]. rewrite Hset. cbn. by rewrite orb_true_r.
  - destruct (ret =? ESP_OK) eqn:Hok.
    + cbn [mbind outcome_bind fst snd]. rewrite Hset. by cbn.
    + unfold ESP_ERROR_CHECK. rewrite Hok. by cbn.
Qed.

Lemma find_from_filter (b i : Z) (n : nat) :
  i + Z.of_nat n = MAX_INTERRUPTS ->
  filter (fun k => Z.testbit b k = true) (seqZ i (Z.of_nat n))
  = let j := bitset.find_from b i n in
    if j <? MAX_INTERRUPTS
    then j :: filter (fun k => Z.testbit b k = true)
                (seqZ (j + 1) (MAX_INTERRUPTS - (j + 1)))
    else [].
Proof.
  revert i. induction n as [| n IH]; intros i Hi.
  - by cbn.
  - rewrite seqZ_cons by lia.
    replace (Z.pred (Z.of_nat (S n))) with (Z.of_nat n) by lia.
    replace (Z.succ i) with (i + 1) by lia.
    cbn [bitset.find_from]. rewrite filter_cons.
    destruct (Z.testbit b i) eqn:Hb.
    + rewrite decide_True by done. cbv zeta.
      rewrite (proj2 (Z.ltb_lt i MAX_INTERRUPTS)) by lia.
      do 3 f_equal. lia.
    + rewrite decide_False by done. apply IH. lia.
Qed.

Lemma find_from_lower (b i : Z) (n : nat) :
  i + Z.of_nat n <= MAX_INTERRUPTS -> i <= bitset.find_from b i n.
Proof.
  revert i. induction n as [| n IH]; intros i Hi; cbn [bitset.find_from].
  - lia.
  - destruct (Z.testbit b i); [lia |]. specialize (IH (i + 1)). lia.
Qed.

Lemma scan_from_filter (b : Z) (fuel : nat) (i0 : Z) :
  0 <= i0 <= MAX_INTERRUPTS ->
  MAX_INTERRUPTS - i0 < Z.of_nat fuel ->
  scan_from b (bitset.find_from b i0 (Z.to_nat (MAX_INTERRUPTS - i0))) fuel
  = filter (fun k => Z.testbit b k = true) (seqZ i0 (MAX_INTERRUPTS - i0)).
Proof.
  revert i0. induction fuel as [| fuel IH]; intros i0 Hi Hfuel; [lia |].
  pose proof (find_from_filter b i0 (Z.to_nat (MAX_INTERRUPTS - i0))) as Hf.
  rewrite Z2Nat.id in Hf by lia. rewrite Hf by lia. cbv zeta.
  pose proof (find_from_lower b i0 (Z.to_nat (MAX_INTERRUPTS - i0))) as Hlow.
  set (j := bitset.find_from b i0 (Z.to_nat (MAX_INTERRUPTS - i0))) in *.
  cbn [scan_from]. destruct (j <? MAX_INTERRUPTS) eqn:Hj; [| done].
  apply Z.ltb_lt in Hj. f_equal. unfold bitset._Find_next.
  apply IH; lia.
Qed.

Lemma scan_filter (notify_value : Z) :
  scan notify_value
  = filter (fun i => Z.testbit notify_value i = true) (seqZ 0 MAX_INTERRUPTS).
Proof.
  unfold scan, bitset._Find_first.
  pose proof (scan_from_filter notify_value (S (Z.to_nat MAX_INTERRUPTS)) 0) as H.
  rewrite Z.sub_0_r in H. apply H; [done |].
  rewrite Nat2Z.inj_succ, Z2Nat.id by done. lia.
Qed.

(** X20.  The loop of [DaemonTask] visits the set bits of the
    notification value below 32, each once, in increasing order. *)
Theorem scan_visits_set_bits (notify_value : Z) :
  scan notify_value
  = filter (fun i => Z.testbit notify_value i = true) (seqZ 0 MAX_INTERRUPTS) /\
  forall i, i ∈ scan notify_value <->
            0 <= i < MAX_INTERRUPTS /\ Z.testbit notify_value i = true.
Proof.
  split; [apply scan_filter |].
  intros i. rewrite scan_filter, list_elem_of_filter, elem_of_seqZ.
  unfold MAX_INTERRUPTS. intuition lia.
Qed.

Local Ltac world_unfold :=
  unfold set_task, set_tasks, set_global_vars_mutex, set_objects,
    set_previous_state;
  cbn [objects gpio_to_id_map id_to_interrupt_map used_ids global_vars_mutex
       interrupt_daemon_task_handle previous_state tasks interrupt_initialized].

Lemma acts_app (l1 l2 : list action) (w : World) :
  acts (l1 ++ l2) w = w1 ← acts l1 w; acts l2 w1.
Proof.
  revert w. induction l1 as [| a l1 IH]; intros w; [done |].
  cbn [app acts]. destruct (act a w); cbn [mbind outcome_bind]; [apply IH | done | done].
Qed.

Lemma Debouncer_set_task (h : nat) (t : Task) (p : ptr) (n : GpioState)
    (w0 w1 : World) :
  Debouncer p n w0 = Done w1 ->
  Debouncer p n (set_task h t w0) = Done (set_task h t w1).
Proof.
  unfold Debouncer. world_simpl. destruct (negb _); [| by intros [= <-]].
  destruct (objects w0 !! p); [| done]. by intros [= <-].
Qed.

Lemma DaemonTask_takes_mutex (h : nat) (nv i c : Z) (w0 : World) :
  (h < length (tasks w0))%nat ->
  global_vars_mutex w0 = Some xSemaphoreCreateMutex ->
  i < MAX_INTERRUPTS ->
  DaemonTask h (set_task h (mkTask (LoopHead nv i) c) w0)
  = Done (set_task h (mkTask (HoldsMutex nv i) c)
            (set_global_vars_mutex (Some (mkSemaphore 0 1)) w0)).
Proof.
  intros Hlen Hm Hi. apply Z.ltb_lt in Hi.
  destruct w0 as [objs gm im used mutex handle prev tks flag]. world_simpl. subst mutex.
  unfold DaemonTask. world_simpl.
  rewrite list_lookup_insert_eq by done. cbn [pc ulNotifiedValue]. rewrite Hi.
  unfold take_global_vars_mutex. world_simpl.
  cbn [xSemaphoreCreateMutex xSemaphoreTake uxCount uxMaxCount Z.ltb Z.compare fst snd
       mbind outcome_bind]. world_simpl. world_unfold.
  by rewrite list_insert_insert_eq.
Qed.

Lemma DaemonTask_looks_up (h : nat) (nv i c : Z) (w0 : World) (p : ptr) :
  (h < length (tasks w0))%nat ->
  global_vars_mutex w0 = Some xSemaphoreCreateMutex ->
  id_to_interrupt_map w0 !! i = Some p ->
  DaemonTask h (set_task h (mkTask (HoldsMutex nv i) c)
                  (set_global_vars_mutex (Some (mkSemaphore 0 1)) w0))
  = Done (set_task h (mkTask (Calls nv i p) c) w0).
Proof.
  intros Hlen Hm Hid.
  destruct w0 as [objs gm im used mutex handle prev tks flag]. world_simpl. subst mutex.
  unfold DaemonTask. world_simpl.
  rewrite list_lookup_insert_eq by done. cbn [pc ulNotifiedValue]. rewrite Hid.
  unfold give_global_vars_mutex. world_simpl.
  cbn [mbind outcome_bind xSemaphoreGive uxCount uxMaxCount Z.ltb Z.compare
       fst snd Z.add]. world_unfold.
  by rewrite list_insert_insert_eq.
Qed.

Lemma DaemonTask_calls (h : nat) (nv i c : Z) (w0 w1 : World) (p : ptr)
    (obj : Interrupt) :
  (h < length (tasks w0))%nat ->
  objects w0 !! p = Some obj ->
  Debouncer p (Interrupt.RawState obj) w0 = Done w1 ->
  DaemonTask h (set_task h (mkTask (Calls nv i p) c) w0)
  = Done (set_task h (mkTask (LoopHead nv (bitset._Find_next nv i)) c) w1).
Proof.
  intros Hlen Hobj Hd. unfold DaemonTask.
  assert (Ht : tasks (set_task h (mkTask (Calls nv i p) c) w0) !! h
               = Some (mkTask (Calls nv i p) c)).
  { world_simpl. by apply list_lookup_insert_eq. }
  rewrite Ht. cbn [pc ulNotifiedValue].
  assert (Ho : objects (set_task h (mkTask (Calls nv i p) c) w0) = objects w0) by done.
  rewrite Ho, Hobj, (Debouncer_set_task _ _ _ _ _ _ Hd).
  cbn [mbind outcome_bind]. unfold set_task, set_tasks. cbn.
  by rewrite list_insert_insert_eq.
Qed.

Lemma DaemonTask_leaves_loop (h : nat) (nv i c : Z) (w0 : World) :
  (h < length (tasks w0))%nat ->
  MAX_INTERRUPTS <= i ->
  DaemonTask h (set_task h (mkTask (LoopHead nv i) c) w0)
  = Done (set_task h (mkTask Waiting c) w0).
Proof.
  intros Hlen Hi. apply Z.ltb_ge in Hi. unfold DaemonTask.
  assert (Ht : tasks (set_task h (mkTask (LoopHead nv i) c) w0) !! h
               = Some (mkTask (LoopHead nv i) c)).
  { world_simpl. by apply list_lookup_insert_eq. }
  rewrite Ht. cbn [pc ulNotifiedValue]. rewrite Hi.
  unfold set_task, set_tasks. cbn. by rewrite list_insert_insert_eq.
Qed.

Lemma daemon_iteration (h : nat) (nv i c : Z) (w0 w1 : World) (p : ptr)
    (obj : Interrupt) :
  (h < length (tasks w0))%nat ->
  global_vars_mutex w0 = Some xSemaphoreCreateMutex ->
  i < MAX_INTERRUPTS ->
  id_to_interrupt_map w0 !! i = Some p ->
  objects w0 !! p = Some obj ->
  Debouncer p (Interrupt.RawState obj) w0 = Done w1 ->
  acts [Daemon h; Daemon h; Daemon h] (set_task h (mkTask (LoopHead nv i) c) w0)
  = Done (set_task h (mkTask (LoopHead nv (bitset._Find_next nv i)) c) w1).
Proof.
  intros Hlen Hm Hi Hid Hobj Hd. cbn [acts act].
  rewrite DaemonTask_takes_mutex by done. cbn [mbind outcome_bind].
  rewrite (DaemonTask_looks_up _ _ _ _ _ p) by done. cbn [mbind outcome_bind].
  by rewrite (DaemonTask_calls _ _ _ _ _ w1 _ obj).
Qed.

Lemma Debouncer_keeps_registry (p : ptr) (n : GpioState) (w0 w1 : World) :
  Debouncer p n w0 = Done w1 ->
  global_vars_mutex w1 = global_vars_mutex w0 /\
  id_to_interrupt_map w1 = id_to_interrupt_map w0.
Proof.
  unfold Debouncer. destruct (negb _); [| by intros [= <-]].
  world_simpl. destruct (objects w0 !! p); [| done]. by intros [= <-].
Qed.

Lemma daemon_loop (h : nat) (nv c : Z) (fuel : nat) (i : Z) (w0 wd : World) :
  (h < length (tasks w0))%nat ->
  global_vars_mutex w0 = Some xSemaphoreCreateMutex ->
  MAX_INTERRUPTS - i < Z.of_nat fuel ->
  dispatch (scan_from nv i fuel) w0 = Done wd ->
  acts (replicate (3 * length (scan_from nv i fuel) + 1) (Daemon h))
    (set_task h (mkTask (LoopHead nv i) c) w0)
  = Done (set_task h (mkTask Waiting c) wd).
Proof.
  revert i w0. induction fuel as [| fuel IH]; intros i w0 Hlen Hm Hfuel Hdisp.
  - cbn in Hdisp. injection Hdisp as <-. cbn [scan_from length replicate acts act
      Nat.mul Nat.add]. rewrite DaemonTask_leaves_loop by (done || lia). done.
  - cbn [scan_from] in *. destruct (i <? MAX_INTERRUPTS) eqn:Hi.
    + apply Z.ltb_lt in Hi. cbn [dispatch] in Hdisp.
      destruct (id_to_interrupt_map w0 !! i) as [p |] eqn:Hid; [| done].
      destruct (objects w0 !! p) as [obj |] eqn:Hobj; [| done].
      destruct (Debouncer p (Interrupt.RawState obj) w0) as [w1 | |] eqn:Hd;
        try done.
      cbn [mbind outcome_bind] in Hdisp. cbn [length].
      set (rest := scan_from nv (bitset._Find_next nv i) fuel) in *.
      replace (3 * S (length rest) + 1)%nat
        with (3 + (3 * length rest + 1))%nat by lia.
      rewrite replicate_add, acts_app.
      change (replicate 3 (Daemon h)) with [Daemon h; Daemon h; Daemon h].
      rewrite (daemon_iteration _ _ _ _ _ w1 p obj) by done.
      cbn [mbind outcome_bind].
      destruct (Debouncer_keeps_registry _ _ _ _ Hd) as [Hm1 _].
      apply IH; [by rewrite (Debouncer_tasks _ _ _ _ Hd) | by rewrite Hm1 | | done].
      pose proof (find_from_lower nv (i + 1) (Z.to_nat (MAX_INTERRUPTS - (i + 1))))
        as Hlow.
      unfold bitset._Find_next. lia.
    + apply Z.ltb_ge in Hi. cbn in Hdisp. injection Hdisp as <-.
      cbn [length replicate acts act Nat.mul Nat.add].
      rewrite DaemonTask_leaves_loop by (done || lia). done.
Qed.

Lemma daemon_runs_round (h : nat) (w wd : World) (t : Task) :
  tasks w !! h = Some t ->
  pc t = Waiting ->
  ulNotifiedValue t <> 0 ->
  global_vars_mutex w = Some xSemaphoreCreateMutex ->
  dispatch (scan (ulNotifiedValue t)) w = Done wd ->
  acts (replicate (3 * length (scan (ulNotifiedValue t)) + 2) (Daemon h)) w
  = Done (set_task h (mkTask Waiting 0) wd).
Proof.
  intros Ht Hpc Hnv Hm Hdisp.
  replace (3 * length (scan (ulNotifiedValue t)) + 2)%nat
    with (S (3 * length (scan (ulNotifiedValue t)) + 1)) by lia.
  cbn [replicate acts act]. unfold DaemonTask at 1. rewrite Ht, Hpc.
  rewrite (proj2 (Z.eqb_neq _ _) Hnv). cbn [mbind outcome_bind].
  unfold scan in *. apply daemon_loop; [..| done].
  - by eapply lookup_lt_Some.
  - done.
  - pose proof (find_from_lower (ulNotifiedValue t) 0 (Z.to_nat MAX_INTERRUPTS)) as Hl.
    unfold bitset._Find_first. rewrite Nat2Z.inj_succ, Z2Nat.id by done.
    unfold MAX_INTERRUPTS in *. lia.
Qed.

(** X21.  One round of the daemon task, no edge arriving meanwhile.
    Woken with a notification value, with the mutex free, the task takes
    the value, and for each set bit in increasing order it takes the
    mutex, reads the object of the id, gives the mutex back and calls
    [Debouncer] on the raw state of the object.  After three steps for
    each set bit and two more it waits again with nothing notified, and
    the world is the one the calls of [Debouncer] leave. *)
Theorem daemon_round (h : nat) (w wd : World) (t : Task) :
  tasks w !! h = Some t ->
  pc t = Waiting ->
  ulNotifiedValue t <> 0 ->
  global_vars_mutex w = Some xSemaphoreCreateMutex ->
  dispatch (scan (ulNotifiedValue t)) w = Done wd ->
  acts (replicate (3 * length (scan (ulNotifiedValue t)) + 2) (Daemon h)) w
  = Done (set_task h (mkTask Waiting 0) wd).
Proof.
  intros Ht Hpc Hnv Hm Hdisp.
  by apply daemon_runs_round.
Qed.

Lemma daemon_round_witness :
  tasks bed_edge !! 1%nat = Some (mkTask Waiting 2) /\
  global_vars_mutex bed_edge = Some xSemaphoreCreateMutex /\
  dispatch (scan 2) bed_edge = Done bed_dispatched /\
  acts (replicate 5 (Daemon 1%nat)) bed_edge
  = Done (set_task 1 (mkTask Waiting 0) bed_dispatched).
Proof.
  assert (Ht : tasks bed_edge !! 1%nat = Some (mkTask Waiting 2))
    by (vm_compute; reflexivity).
  assert (Hm : global_vars_mutex bed_edge = Some xSemaphoreCreateMutex)
    by (vm_compute; reflexivity).
  assert (Hd : dispatch (scan 2) bed_edge = Done bed_dispatched)
    by (vm_compute; reflexivity).
  split; [exact Ht |]. split; [exact Hm |]. split; [exact Hd |].
  assert (Hnv : ulNotifiedValue (mkTask Waiting 2) <> 0) by discriminate.
  exact (daemon_round 1%nat bed_edge bed_dispatched (mkTask Waiting 2)
           Ht eq_refl Hnv Hm Hd).
Defined.


Lemma insert_alter_id (l : list Task) (h : nat) (f : Task -> Task) (t : Task) :
  l !! h = Some t -> <[h := t]> (alter f h l) = l.
Proof.
  intros Ht. apply list_eq. intros j. destruct (decide (j = h)) as [-> | Hne].
  - rewrite list_lookup_insert_eq; [by rewrite Ht |].
    rewrite length_alter. by eapply lookup_lt_Some.
  - by rewrite list_lookup_insert_ne, list_lookup_alter_ne.
Qed.






Lemma InterruptHandler_keeps_previous_state (arg : ptr) (level : Z)
    (w w' : World) :
  InterruptHandler arg level w = Done w' -> previous_state w' = previous_state w.
Proof.
  unfold InterruptHandler. destruct (objects w !! arg) as [obj |]; [| done].
  destruct (global_vars_mutex w) as [q |]; [| done].
  destruct (fst (xSemaphoreTake q)); [| by intros [= <-]].
  unfold xTaskNotifyFromISR. world_simpl.
  destruct (interrupt_daemon_task_handle w) as [h0 |]; [| done].
  cbn [mbind outcome_bind give_global_vars_mutex]. world_simpl.
  by intros [= <-].
Qed.

Lemma DaemonTask_skips (h : nat) (w w' : World) :
  (forall p obj, objects w !! p = Some obj ->
                 Interrupt.RawState obj = previous_state w) ->
  DaemonTask h w = Done w' ->
  objects w' = objects w /\ previous_state w' = previous_state w.
Proof.
  intros Hraw. unfold DaemonTask.
  destruct (tasks w !! h) as [t |]; [| done].
  destruct (pc t) as [| nv i | nv i | nv i p |]; try done.
  - destruct (_ =? 0); [done |]. by intros [= <-].
  - destruct (i <? MAX_INTERRUPTS); [| by intros [= <-]].
    unfold take_global_vars_mutex. destruct (global_vars_mutex w); [| done].
    destruct (fst _); [| done]. cbn [mbind outcome_bind]. by intros [= <-].
  - destruct (id_to_interrupt_map w !! i); [| done].
    unfold give_global_vars_mutex. destruct (global_vars_mutex w); [| done].
    cbn [mbind outcome_bind]. by intros [= <-].
  - destruct (objects w !! p) as [obj |] eqn:Hobj; [| done].
    rewrite Debouncer_same_as_previous by (symmetry; by eapply Hraw).
    cbn [mbind outcome_bind]. by intros [= <-].
Qed.

Lemma acts_skip (l : list action) (w w' : World) :
  (forall p obj, objects w !! p = Some obj ->
                 Interrupt.RawState obj = previous_state w) ->
  acts l w = Done w' ->
  objects w' = objects w /\ previous_state w' = previous_state w.
Proof.
  revert w. induction l as [| a l IH]; intros w Hraw; cbn [acts].
  - by intros [= <-].
  - destruct (act a w) as [w1 | |] eqn:Hact; cbn [mbind outcome_bind]; try done.
    intros Hrest.
    assert (H1 : objects w1 = objects w /\ previous_state w1 = previous_state w).
    { destruct a as [arg level | h]; cbn [act] in Hact.
      - split; [by eapply InterruptHandler_keeps_objects
               | by eapply InterruptHandler_keeps_previous_state].
      - by eapply DaemonTask_skips. }
    destruct H1 as [Ho1 Hp1].
    destruct (IH w1) as [Ho Hp]; [| exact Hrest |].
    + intros p obj. rewrite Ho1, Hp1. apply Hraw.
    + by rewrite Ho, Hp.
Qed.

Lemma Interrupt_ctor_raw_states (a : answers) (this : ptr)
    (gpio_num rise fall : Z) (inverse_logic : bool) (w w' : World) :
  previous_state w = Undefined ->
  (forall p obj, objects w !! p = Some obj ->
                 Interrupt.RawState obj = previous_state w) ->
  Interrupt_ctor a this gpio_num rise fall inverse_logic w = Done w' ->
  previous_state w' = Undefined /\
  forall p obj, objects w' !! p = Some obj ->
                Interrupt.RawState obj = previous_state w'.
Proof.
  intros Hprev Hraw Hrun.
  destruct (Interrupt_ctor_Done _ _ _ _ _ _ _ _ Hrun)
    as (_ & _ & _ & _ & _ & _ & _ & _ & _ & Ho & Hp).
  rewrite Hp, Ho. split; [exact Hprev |].
  intros p obj. rewrite lookup_insert. case_decide.
  - intros [= <-]. by rewrite Hprev.
  - apply Hraw.
Qed.

(** X26.  No edge reaches the state machine.  In a world where every
    object holds as raw state the value of [previous_state], as in every
    world built by constructions from power-on, where both are
    [Undefined], no sequence of edges and daemon steps changes an
    object or [previous_state]: the handler stores no level, so the
    daemon task hands [Debouncer] the same raw state each time and the
    call is skipped.  [fsm_state_], the pending count and the timer of
    every object stay as constructed. *)
Theorem edges_change_no_object (l : list action) (w w' : World) :
  (forall p obj, objects w !! p = Some obj ->
                 Interrupt.RawState obj = previous_state w) ->
  acts l w = Done w' ->
  objects w' = objects w /\ previous_state w' = previous_state w.
Proof.
  intros Hraw Hrun.
  by apply (acts_skip l w w').
Qed.

Lemma edges_change_no_object_witness :
  let l := [Edge pir 1; Daemon 1%nat; Daemon 1%nat; Edge bed 0; Daemon 1%nat;
            Daemon 1%nat; Daemon 1%nat; Edge bed 0; Daemon 1%nat] in
  (forall p obj, objects two_sources !! p = Some obj ->
                 Interrupt.RawState obj = previous_state two_sources) /\
  exists w',
    acts l two_sources = Done w' /\
    objects w' = objects two_sources /\
    previous_state w' = previous_state two_sources.
Proof.
  intros l.
  assert (Hraw : forall p obj, objects two_sources !! p = Some obj ->
                   Interrupt.RawState obj = previous_state two_sources).
  { assert (H1 : Interrupt_ctor all_well pir 2 100 5000 false power_on
                 = Done (done_or power_on
                           (Interrupt_ctor all_well pir 2 100 5000 false power_on)))
      by (vm_compute; reflexivity).
    assert (H2 : Interrupt_ctor all_well bed 3 20 20 true
                   (done_or power_on
                      (Interrupt_ctor all_well pir 2 100 5000 false power_on))
                 = Done two_sources) by (vm_compute; reflexivity).
    assert (H0p : previous_state power_on = Undefined) by reflexivity.
    assert (H0r : forall p obj, objects power_on !! p = Some obj ->
                    Interrupt.RawState obj = previous_state power_on).
    { intros p obj H. cbn in H. rewrite lookup_empty in H. discriminate H. }
    destruct (Interrupt_ctor_raw_states _ _ _ _ _ _ _ _ H0p H0r H1) as [Hp1 Hr1].
    exact (proj2 (Interrupt_ctor_raw_states _ _ _ _ _ _ _ _ Hp1 Hr1 H2)). }
  split; [exact Hraw |].
  destruct (acts l two_sources) as [w' | |] eqn:Hrun.
  - exists w'. split; [reflexivity |].
    exact (edges_change_no_object l two_sources w' Hraw Hrun).
  - vm_compute in Hrun. discriminate Hrun.
  - vm_compute in Hrun. discriminate Hrun.
Defined.

End HandoffMore.

(** ** wifi.cpp: retries and the connection result *)

Section WiFiFacts.

Import WiFi.

Lemma handle_all_snoc (evs : list event) (e : event) (st : state) :
  handle_all (evs ++ [e]) st = EventHandler e (handle_all evs st).
Proof.
  unfold handle_all.
  by rewrite fold_left_app.
Qed.

Lemma count_event_snoc (e x : event) (evs : list event) :
  count_event e (evs ++ [x]) = count_event e evs + (if decide (x = e) then 1 else 0).
Proof.
  unfold count_event.
  rewrite filter_app, length_app, Nat2Z.inj_add.
  f_equal.
  rewrite filter_cons, filter_nil.
  by destruct (decide (x = e)).
Qed.

Lemma count_event_nil (e : event) : count_event e [] = 0.
Proof. reflexivity. Qed.

Lemma count_event_nonneg (e : event) (evs : list event) : 0 <= count_event e evs.
Proof. unfold count_event. lia. Qed.

Lemma count_event_pos (e : event) (evs : list event) :
  0 < count_event e evs <-> e ∈ evs.
Proof.
  induction evs as [|x evs IH] using rev_ind.
  - split; [unfold count_event; cbn; lia | by intros ?%elem_of_nil].
  - rewrite count_event_snoc, elem_of_app, list_elem_of_singleton.
    pose proof (count_event_nonneg e evs).
    destruct (decide (x = e)) as [->|Hne].
    + split; [by right | lia].
    + rewrite Z.add_0_r, IH.
      split; [by left | by intros [?|?]].
Qed.

Lemma small_bits (b : Z) : 0 <= b < 4 -> b = 0 \/ b = 1 \/ b = 2 \/ b = 3.
Proof. lia. Qed.

Local Ltac handled_split :=
  split;
  cbn [s_retry_num max_reconnection_retries wifi_event_group
       esp_wifi_connect_calls];
  rewrite ?count_event_snoc;
  repeat case_decide; try discriminate;
  rewrite ?Z.add_0_r;
  try done; try lia.

Local Ltac by_bits Hbits :=
  unfold xEventGroupSetBits;
  destruct (small_bits _ Hbits) as [Hz|[Hz|[Hz|Hz]]]; rewrite Hz in *;
  by vm_compute.

Lemma handled_all (m : Z) (evs : list event) :
  0 <= m < 2 ^ 32 ->
  handled m evs (handle_all evs (connecting m)).
Proof.
  intros Hm.
  induction evs as [|e evs IH] using rev_ind.
  - split; rewrite ?count_event_nil; cbn; try lia; try done.
  - rewrite handle_all_snoc.
    destruct IH as [Hmax Hretry Hdisc Hconn Hbits Hc Hf].
    set (st := handle_all evs (connecting m)) in *.
    pose proof (count_event_nonneg IP_EVENT_STA_GOT_IP evs) as Hg0.
    pose proof (count_event_nonneg WIFI_EVENT_STA_DISCONNECTED evs) as Hd0.
    destruct e; cbn [EventHandler].
    + handled_split.
    + destruct (s_retry_num st <? max_reconnection_retries st) eqn:Hlt.
      * apply Z.ltb_lt in Hlt.
        assert (Hmod : (s_retry_num st + 1) mod 2 ^ 32 = s_retry_num st + 1)
          by (apply Z.mod_small; lia).
        rewrite Hmod.
        handled_split.
        intros Hb. specialize (Hf Hb). lia.
      * apply Z.ltb_ge in Hlt.
        handled_split.
        -- by_bits Hbits.
        -- rewrite <- Hc. by_bits Hbits.
    + handled_split.
    + handled_split.
      * by_bits Hbits.
      * split; [lia|intros _]. by_bits Hbits.
      * intros Hb. apply Hf. revert Hb. by_bits Hbits.
    + handled_split.
    + handled_split.
Qed.

Lemma WaitForWiFiConnection_by_bits (st : state) :
  0 <= wifi_event_group st < 4 ->
  WaitForWiFiConnection st =
    if Z.testbit (wifi_event_group st) 0 then Done ESP_OK
    else if Z.testbit (wifi_event_group st) 1 then Done ESP_FAIL
    else Blocked.
Proof.
  intros Hbits.
  unfold WaitForWiFiConnection.
  destruct (small_bits _ Hbits) as [Hz|[Hz|[Hz|Hz]]]; rewrite Hz;
    by vm_compute.
Qed.

Lemma WaitForWiFiConnection_ok (m : Z) (evs : list event) :
  0 <= m < 2 ^ 32 ->
  WaitForWiFiConnection (handle_all evs (connecting m)) = Done ESP_OK
  <-> IP_EVENT_STA_GOT_IP ∈ evs.
Proof.
  intros Hm.
  destruct (handled_all m evs Hm) as [_ _ _ _ Hbits Hc _].
  rewrite WaitForWiFiConnection_by_bits by done.
  rewrite <- count_event_pos, <- Hc.
  destruct (Z.testbit _ 0); [done|].
  destruct (Z.testbit _ 1); split; discriminate.
Qed.

(** X23.  Between [ConnectToSTA(ssid, pass, m)] and any later moment, whatever
    events the handler was given: [s_retry_num] never exceeds [m] (so the
    increment never wraps), and [esp_wifi_connect] was called at least once
    per STA_START event and at most once per STA_START event plus [m]
    times per connection, counting the first attempt and one more for
    every GOT_IP event. *)
Theorem reconnections_are_bounded (m : Z) (evs : list event) :
  0 <= m < 2 ^ 32 ->
  let st := handle_all evs (connecting m) in
  0 <= s_retry_num st <= m /\
  count_event WIFI_EVENT_STA_START evs <= esp_wifi_connect_calls st
  <= count_event WIFI_EVENT_STA_START evs
     + m * (count_event IP_EVENT_STA_GOT_IP evs + 1).
Proof.
  intros Hm st.
  destruct (handled_all m evs Hm) as [_ Hretry _ Hconn _ _ _].
  fold st in Hretry, Hconn.
  split; [done | lia].
Qed.

Lemma reconnections_are_bounded_witness :
  let evs := [WIFI_EVENT_STA_START; WIFI_EVENT_STA_DISCONNECTED;
              WIFI_EVENT_STA_DISCONNECTED; WIFI_EVENT_STA_DISCONNECTED;
              WIFI_EVENT_STA_DISCONNECTED] in
  let st := handle_all evs (connecting 2) in
  0 <= 2 < 2 ^ 32 /\
  esp_wifi_connect_calls st = 3 /\
  (0 <= s_retry_num st <= 2 /\
   count_event WIFI_EVENT_STA_START evs <= esp_wifi_connect_calls st
   <= count_event WIFI_EVENT_STA_START evs
      + 2 * (count_event IP_EVENT_STA_GOT_IP evs + 1)).
Proof.
  intros evs st.
  assert (Hm : 0 <= 2 < 2 ^ 32) by lia.
  split; [exact Hm|].
  split; [reflexivity|].
  exact (reconnections_are_bounded 2 evs Hm).
Defined.

(** X24.  [WaitForWiFiConnection] returns [ESP_OK] exactly when a GOT_IP
    event was handled at some time since [ConnectToSTA]: the handler
    never clears a bit of the event group and the connected bit is
    tested first, so a connection that was lost afterwards, with all
    retries used up and the fail bit set, still reads as connected. *)
Theorem WaitForWiFiConnection_ok_iff_got_ip (m : Z) (evs : list event) :
  0 <= m < 2 ^ 32 ->
  (WaitForWiFiConnection (handle_all evs (connecting m)) = Done ESP_OK
   <-> IP_EVENT_STA_GOT_IP ∈ evs).
Proof.
  intros Hm.
  by apply WaitForWiFiConnection_ok.
Qed.

Lemma WaitForWiFiConnection_ok_iff_got_ip_witness :
  let evs := [WIFI_EVENT_STA_START; IP_EVENT_STA_GOT_IP;
              WIFI_EVENT_STA_DISCONNECTED; WIFI_EVENT_STA_DISCONNECTED] in
  0 <= 0 < 2 ^ 32 /\
  Z.testbit (wifi_event_group (handle_all evs (connecting 0))) 1 = true /\
  WaitForWiFiConnection (handle_all evs (connecting 0)) = Done ESP_OK.
Proof.
  intros evs.
  assert (Hm : 0 <= 0 < 2 ^ 32) by lia.
  split; [exact Hm|].
  split; [reflexivity|].
  apply (proj2 (WaitForWiFiConnection_ok_iff_got_ip 0 evs Hm)).
  unfold evs.
  apply list_elem_of_further, list_elem_of_here.
Defined.

(** X25.  [WaitForWiFiConnection] returns [ESP_FAIL] only when no GOT_IP
    event was handled and more than [m] STA_DISCONNECTED events were:
    the [m] retries and the disconnection that found none left. *)
Theorem WaitForWiFiConnection_fail_after_retries (m : Z) (evs : list event) :
  0 <= m < 2 ^ 32 ->
  WaitForWiFiConnection (handle_all evs (connecting m)) = Done ESP_FAIL ->
  (IP_EVENT_STA_GOT_IP ∉ evs) /\
  m < count_event WIFI_EVENT_STA_DISCONNECTED evs.
Proof.
  intros Hm.
  destruct (handled_all m evs Hm) as [_ _ _ _ Hbits Hc Hf].
  rewrite WaitForWiFiConnection_by_bits by done.
  rewrite <- count_event_pos, <- Hc.
  destruct (Z.testbit _ 0); [discriminate|].
  destruct (Z.testbit _ 1); [|discriminate].
  intros _.
  split; [discriminate | by apply Hf].
Qed.

Lemma WaitForWiFiConnection_fail_after_retries_witness :
  let evs := [WIFI_EVENT_STA_START; WIFI_EVENT_STA_DISCONNECTED;
              WIFI_EVENT_STA_DISCONNECTED; WIFI_EVENT_STA_DISCONNECTED] in
  0 <= 2 < 2 ^ 32 /\
  WaitForWiFiConnection (handle_all evs (connecting 2)) = Done ESP_FAIL /\
  ((IP_EVENT_STA_GOT_IP ∉ evs) /\
   2 < count_event WIFI_EVENT_STA_DISCONNECTED evs).
Proof.
  intros evs.
  assert (Hm : 0 <= 2 < 2 ^ 32) by lia.
  assert (Hr : WaitForWiFiConnection (handle_all evs (connecting 2)) = Done ESP_FAIL)
    by reflexivity.
  split; [exact Hm|].
  split; [exact Hr|].
  exact (WaitForWiFiConnection_fail_after_retries 2 evs Hm Hr).
Defined.

End WiFiFacts.
